(** * mac-host-assess: the plan, the command runner and the phase loop

    A shallow embedding of [src/mac_assess/state.py],
    [src/mac_assess/tools/base.py], the tool registry under
    [src/mac_assess/tools/] and the LangGraph control loop of
    [src/mac_assess/agent.py], followed by the properties of the
    specification that concern them.

    Python values are modelled as follows: [int] is [Z]; [str] is [string],
    a character being a code point below 256; [list] is [list]; an
    exception is a value of [exception] carried by [result]. *)

From Stdlib Require Import ZArith List String Ascii Bool Lia.
From Stdlib Require Import DecimalString.
Import ListNotations.
Open Scope string_scope.
Open Scope Z_scope.

(** ** Python exceptions and fallible computations *)

Inductive exception : Type :=
| IndexError
| ValueError (msg : string)
| TimeoutExpired (cmd : string) (timeout : Z)
| OSError (msg : string)
| ValidationError (msg : string)
| GraphRecursionError.

Inductive result (A : Type) : Type :=
| Ok (a : A)
| Raise (e : exception).
Arguments Ok {A} a.
Arguments Raise {A} e.

Definition bind {A B : Type} (r : result A) (k : A -> result B) : result B :=
  match r with
  | Ok a => k a
  | Raise e => Raise e
  end.

(** ** The [str] methods the program uses *)

Module PyStr.

Definition LF : ascii := ascii_of_nat 10.
Definition DQ : ascii := ascii_of_nat 34.
Definition nl : string := String LF EmptyString.

(** [str.isspace] on one code point below 256. *)
Definition isspace (c : ascii) : bool :=
  let n := nat_of_ascii c in
  ((9 <=? n) && (n <=? 13) || (28 <=? n) && (n <=? 32)
   || (n =? 133) || (n =? 160))%nat.

(** [str.isdigit] on one code point below 256: the decimal digits and
    the superscripts two, three and one. *)
Definition isdigit (c : ascii) : bool :=
  let n := nat_of_ascii c in
  ((48 <=? n) && (n <=? 57) || (n =? 178) || (n =? 179) || (n =? 185))%nat.

(** Truth value of a string: non-empty. *)
Definition truthy (s : string) : bool :=
  match s with
  | EmptyString => false
  | String _ _ => true
  end.

(** [a or b] on strings. *)
Definition or_else (a b : string) : string := if truthy a then a else b.

Fixpoint lstrip (s : string) : string :=
  match s with
  | EmptyString => EmptyString
  | String c r => if isspace c then lstrip r else s
  end.

Fixpoint rstrip (s : string) : string :=
  match s with
  | EmptyString => EmptyString
  | String c r =>
      let r' := rstrip r in
      if isspace c && negb (truthy r') then EmptyString else String c r'
  end.

(** Only whitespace, possibly none. *)
Fixpoint all_space (s : string) : bool :=
  match s with
  | EmptyString => true
  | String c r => isspace c && all_space r
  end.

(** A string that does not begin with whitespace. *)
Definition starts_visible (s : string) : bool :=
  match s with
  | EmptyString => true
  | String c _ => negb (isspace c)
  end.

(** [s.strip()] *)
Definition strip (s : string) : string := rstrip (lstrip s).

(** [s.startswith(p)] *)
Definition startswith (s p : string) : bool := String.prefix p s.

(** [s.split(sep)] for a one-character separator: never the empty list. *)
Fixpoint split (sep : ascii) (s : string) : list string :=
  match s with
  | EmptyString => [EmptyString]
  | String c r =>
      if Ascii.eqb c sep then EmptyString :: split sep r
      else match split sep r with
           | h :: t => String c h :: t
           | [] => [String c EmptyString]
           end
  end.

(** [s.split(sep, 1)[-1]]: what follows the first [sep], or all of [s]
    when [sep] does not occur. *)
Fixpoint after_first (sep : ascii) (s : string) : option string :=
  match s with
  | EmptyString => None
  | String c r => if Ascii.eqb c sep then Some r else after_first sep r
  end.

Definition split1_last (sep : ascii) (s : string) : string :=
  match after_first sep s with
  | Some r => r
  | None => s
  end.

(** [s[1:]] *)
Definition tail (s : string) : string :=
  match s with
  | EmptyString => EmptyString
  | String _ r => r
  end.

(** [s.replace(old, new)] for a non-empty [old]: the occurrences are
    replaced from the left and do not overlap.  [skip] counts the
    characters of a matched occurrence still to be dropped. *)
Fixpoint replace_from (old new : string) (skip : nat) (s : string) : string :=
  match s with
  | EmptyString => EmptyString
  | String c r =>
      match skip with
      | S k => replace_from old new k r
      | O =>
          if String.prefix old s
          then new ++ replace_from old new (Nat.pred (String.length old)) r
          else String c (replace_from old new O r)
      end
  end.

Definition replace (old new s : string) : string := replace_from old new O s.

(** [sep.join(l)] *)
Fixpoint join (sep : string) (l : list string) : string :=
  match l with
  | [] => EmptyString
  | [x] => x
  | x :: r => x ++ sep ++ join sep r
  end.

(** [str(n)] for an [int]. *)
Definition str_of_int (n : Z) : string := NilZero.string_of_int (Z.to_int n).

(** [sub in s] *)
Definition contains (s sub : string) : Prop :=
  exists pre post : string, s = pre ++ sub ++ post.

(** [sub in s], decided: [sub] begins at some position of [s]. *)
Fixpoint occurs_in (sub s : string) : bool :=
  String.prefix sub s
  || match s with
     | EmptyString => false
     | String _ r => occurs_in sub r
     end.

End PyStr.

(** [l[i]] on a Python list: a negative index counts from the end. *)
Definition py_index {A : Type} (l : list A) (i : Z) : result A :=
  let n := Z.of_nat (List.length l) in
  let j := if i <? 0 then i + n else i in
  if (j <? 0) || (n <=? j) then Raise IndexError
  else match nth_error l (Z.to_nat j) with
       | Some x => Ok x
       | None => Raise IndexError
       end.

(** ** [state.py]: the plan *)

Module State.

Record AssessmentPlan : Type := {
  objective : string;
  steps : list string;
  current_step : Z;
  findings : list string
}.

(** [AssessmentPlan(objective=o, steps=s)]: the other fields take their
    defaults. *)
Definition new_plan (o : string) (s : list string) : AssessmentPlan :=
  {| objective := o; steps := s; current_step := 0; findings := [] |}.

Definition len_steps (p : AssessmentPlan) : Z := Z.of_nat (List.length (steps p)).

Definition next_step (p : AssessmentPlan) : result (option string) :=
  if current_step p <? len_steps p
  then bind (py_index (steps p) (current_step p)) (fun s => Ok (Some s))
  else Ok None.

Definition advance (p : AssessmentPlan) : AssessmentPlan :=
  {| objective := objective p;
     steps := steps p;
     current_step := current_step p + 1;
     findings := findings p |}.

Definition is_complete (p : AssessmentPlan) : bool :=
  len_steps p <=? current_step p.

(** [n] successive calls of [advance]. *)
Fixpoint advance_n (n : nat) (p : AssessmentPlan) : AssessmentPlan :=
  match n with
  | O => p
  | S k => advance_n k (advance p)
  end.

(** The invariant the data model asks of a plan. *)
Definition cursor_in_range (p : AssessmentPlan) : Prop :=
  0 <= current_step p <= len_steps p.

(** The three operations of a plan, and a sequence of them applied in
    order.  [next_step] and [is_complete] only read. *)
Inductive Op : Type := Op_next_step | Op_advance | Op_is_complete.

Definition apply_op (o : Op) (p : AssessmentPlan) : AssessmentPlan :=
  match o with
  | Op_advance => advance p
  | Op_next_step | Op_is_complete => p
  end.

Fixpoint apply_ops (ops : list Op) (p : AssessmentPlan) : AssessmentPlan :=
  match ops with
  | [] => p
  | o :: r => apply_ops r (apply_op o p)
  end.

(** Every [advance] of the sequence meets a plan that is not complete. *)
Fixpoint advances_incomplete_only (ops : list Op) (p : AssessmentPlan) : bool :=
  match ops with
  | [] => true
  | o :: r =>
      match o with
      | Op_advance => negb (is_complete p)
      | _ => true
      end && advances_incomplete_only r (apply_op o p)
  end.

End State.

(** ** Computations on the host

    A computation reads and changes the host (the processes it starts, the
    model it queries) and ends with a value or a raised exception. *)

Definition M (Env A : Type) : Type := Env -> result A * Env.

Definition ret {Env A : Type} (a : A) : M Env A := fun env => (Ok a, env).

Definition raise {Env A : Type} (e : exception) : M Env A :=
  fun env => (Raise e, env).

Definition mbind {Env A B : Type} (m : M Env A) (k : A -> M Env B) : M Env B :=
  fun env =>
    match m env with
    | (Ok a, env') => k a env'
    | (Raise e, env') => (Raise e, env')
    end.

Notation "x <- m ;; k" := (mbind m (fun x => k))
  (at level 61, m at next level, right associativity).

(** [[f(x) for x in l]] for an effectful [f], from the left. *)
Fixpoint mapM {Env A B : Type} (f : A -> M Env B) (l : list A) : M Env (list B) :=
  match l with
  | [] => ret []
  | x :: r => y <- f x ;; ys <- mapM f r ;; ret (y :: ys)
  end.

(** A computation that ends with a value on every host. *)
Definition never_raises {Env A : Type} (m : M Env A) : Prop :=
  forall env : Env, exists (a : A) (env' : Env), m env = (Ok a, env').

(** ** [tools/base.py]: the command runner *)

(** What [subprocess.run] returns with [capture_output=True, text=True]. *)
Record CompletedProcess : Type := {
  cp_stdout : string;
  cp_stderr : string;
  cp_returncode : Z
}.

(** The host's [subprocess.run(command, shell=..., capture_output=True,
    text=True, timeout=...)].  Interrupts of the interpreter itself
    (KeyboardInterrupt, SystemExit) are not outcomes of an execution and are
    not modelled. *)
Class Subprocess (Env : Type) : Type := {
  subprocess_run : string -> bool -> Z -> M Env CompletedProcess
}.

(** On this host no command ends with exit code 0. *)
Definition every_command_fails {Env : Type} `{Subprocess Env} : Prop :=
  forall (command : string) (shell : bool) (timeout : Z) (env : Env),
    match fst (subprocess_run command shell timeout env) with
    | Ok done => cp_returncode done <> 0
    | Raise _ => True
    end.

(** [str(e)] *)
Definition str_of_exception (e : exception) : string :=
  match e with
  | IndexError => "list index out of range"
  | ValueError msg => msg
  | TimeoutExpired cmd t =>
      "Command '" ++ cmd ++ "' timed out after " ++ PyStr.str_of_int t ++ " seconds"
  | OSError msg => msg
  | ValidationError msg => msg
  | GraphRecursionError => "Recursion limit reached"
  end.

Module Base.

Record CommandResult : Type := {
  stdout : string;
  stderr : string;
  returncode : Z
}.

Definition success (r : CommandResult) : bool := returncode r =? 0.

Definition output (r : CommandResult) : string :=
  PyStr.or_else (stdout r) (stderr r).

Section Runner.
Context {Env : Type} `{Subprocess Env}.

(** The [try] block, then the two handlers in their order. *)
Definition run_command_with (command : string) (timeout : Z) (shell : bool)
  : M Env CommandResult :=
  fun env =>
    match subprocess_run command shell timeout env with
    | (Ok result, env') =>
        (Ok {| stdout := cp_stdout result;
               stderr := cp_stderr result;
               returncode := cp_returncode result |}, env')
    | (Raise (TimeoutExpired _ _), env') =>
        (Ok {| stdout := "";
               stderr := "Command timed out after "
                         ++ PyStr.str_of_int timeout ++ "s";
               returncode := -1 |}, env')
    | (Raise e, env') =>
        (Ok {| stdout := "";
               stderr := str_of_exception e;
               returncode := -1 |}, env')
    end.

(** [run_command(command, timeout)], with [shell] at its default. *)
Definition run_command (command : string) (timeout : Z) : M Env CommandResult :=
  run_command_with command timeout true.

Definition default_timeout : Z := 30.

(** [results[name] = value] on a dictionary kept as its items in insertion
    order: a known key keeps its place, a new key goes last. *)
Fixpoint dict_set {V : Type} (k : string) (v : V) (d : list (string * V))
  : list (string * V) :=
  match d with
  | [] => [(k, v)]
  | (k', v') :: r =>
      if String.eqb k' k then (k', v) :: r else (k', v') :: dict_set k v r
  end.

Fixpoint dict_get {V : Type} (k : string) (d : list (string * V)) : option V :=
  match d with
  | [] => None
  | (k', v) :: r => if String.eqb k' k then Some v else dict_get k r
  end.

(** The keys of a dictionary are pairwise different. *)
Fixpoint distinct (keys : list string) : bool :=
  match keys with
  | [] => true
  | k :: r => negb (existsb (String.eqb k) r) && distinct r
  end.

(** The loop of [run_commands] over [commands.items()]. *)
Fixpoint run_commands_into (commands : list (string * string)) (timeout : Z)
  (results : list (string * CommandResult))
  : M Env (list (string * CommandResult)) :=
  match commands with
  | [] => ret results
  | (name, cmd) :: rest =>
      r <- run_command cmd timeout ;;
      run_commands_into rest timeout (dict_set name r results)
  end.

Definition run_commands (commands : list (string * string)) (timeout : Z)
  : M Env (list (string * CommandResult)) :=
  run_commands_into commands timeout [].

Definition check_path_exists (path : string) : M Env bool :=
  result <- run_command ("test -e " ++ path ++ " && echo 'exists'")
                        default_timeout ;;
  ret (PyStr.occurs_in "exists" (stdout result)).

Definition expand_path (path : string) : M Env string :=
  result <- run_command ("echo " ++ path) default_timeout ;;
  ret (PyStr.strip (stdout result)).

End Runner.

Definition format_command_output_with
  (result : CommandResult) (include_stderr include_returncode : bool) : string :=
  let output := stdout result in
  let output :=
    if include_stderr && PyStr.truthy (stderr result)
    then if PyStr.truthy output
         then output ++ PyStr.nl ++ "STDERR: " ++ stderr result
         else stderr result
    else output in
  let output :=
    if include_returncode && negb (success result)
    then output ++ PyStr.nl ++ "Return code: "
                ++ PyStr.str_of_int (returncode result)
    else output in
  PyStr.or_else output "(no output)".

(** [format_command_output(result)] with both options at their defaults. *)
Definition format_command_output (result : CommandResult) : string :=
  format_command_output_with result true true.

End Base.

(** ** [tools/]: the registry *)

Module Tools.

(** The arguments of a tool call: a mapping from names to strings. *)
Definition Args : Type := list (string * string).

Fixpoint get_arg (k : string) (args : Args) : option string :=
  match args with
  | [] => None
  | (k', v) :: r => if String.eqb k k' then Some v else get_arg k r
  end.

(** A function decorated with [@tool]: its name and what calling it with
    an argument mapping does. *)
Record BaseTool (Env : Type) : Type := {
  name : string;
  run : Args -> M Env string
}.
Arguments name {Env} _.
Arguments run {Env} _ _.

Definition dq : string := String PyStr.DQ EmptyString.

Section Registry.
Context {Env : Type} `{Subprocess Env}.

(** A tool that runs one command and returns [result.output]. *)
Definition output_of (command : string) : Args -> M Env string :=
  fun _ =>
    result <- Base.run_command command Base.default_timeout ;;
    ret (Base.output result).

(** [[run_command(cmd).stdout for cmd in commands]] joined by newlines. *)
Definition stdouts_of (commands : list string) : Args -> M Env string :=
  fun _ =>
    results <- mapM (fun cmd =>
                       r <- Base.run_command cmd Base.default_timeout ;;
                       ret (Base.stdout r)) commands ;;
    ret (PyStr.join PyStr.nl results).

(** system/info.py *)
Definition get_system_info : BaseTool Env :=
  {| name := "get_system_info";
     run := fun _ =>
       results <- mapM (fun '(name, cmd) =>
                          output <- Base.run_command cmd Base.default_timeout ;;
                          ret ("=== " ++ name ++ " ===" ++ PyStr.nl
                                      ++ Base.stdout output))
                       [("hostname", "hostname");
                        ("os_version", "sw_vers");
                        ("hardware",
                         "system_profiler SPHardwareDataType 2>/dev/null | head -20")] ;;
       ret (PyStr.join PyStr.nl results) |}.

(** system/user.py *)
Definition get_current_user : BaseTool Env :=
  {| name := "get_current_user";
     run := output_of "id && whoami && groups" |}.

(** credentials/keychain.py *)
Definition list_keychains : BaseTool Env :=
  {| name := "list_keychains";
     run := output_of "security list-keychains" |}.

(** credentials/ssh.py *)
Definition find_ssh_keys : BaseTool Env :=
  {| name := "find_ssh_keys";
     run := output_of
              "ls -la ~/.ssh/ 2>/dev/null || echo 'No .ssh directory found'" |}.

(** credentials/aws.py *)
Definition find_aws_credentials : BaseTool Env :=
  {| name := "find_aws_credentials";
     run := stdouts_of
              ["ls -la ~/.aws/ 2>/dev/null || echo 'No .aws directory'";
               "cat ~/.aws/credentials 2>/dev/null | head -5 || echo 'No credentials file'"] |}.

(** The loop of [find_cloud_configs] and [find_browser_data]: one
    command per entry, a section for each that succeeds. *)
Fixpoint collect_sections (command_of header_of : string * string -> string)
  (paths : list (string * string)) : M Env (list string) :=
  match paths with
  | [] => ret []
  | entry :: rest =>
      result <- Base.run_command (command_of entry) Base.default_timeout ;;
      results <- collect_sections command_of header_of rest ;;
      ret (if Base.success result
           then (header_of entry ++ PyStr.nl ++ Base.stdout result) :: results
           else results)
  end.

Definition joined_or (fallback : string) (results : list string) : string :=
  match results with
  | [] => fallback
  | _ => PyStr.join PyStr.nl results
  end.

(** credentials/cloud.py *)
Definition CLOUD_CONFIG_PATHS : list (string * string) :=
  [("AWS", "~/.aws"); ("GCP", "~/.config/gcloud");
   ("Azure", "~/.azure"); ("Kubernetes", "~/.kube")].

Definition find_cloud_configs : BaseTool Env :=
  {| name := "find_cloud_configs";
     run := fun _ =>
       results <- collect_sections
                    (fun '(_, path) => "ls -la " ++ path ++ " 2>/dev/null")
                    (fun '(name, path) =>
                       "=== " ++ name ++ " (" ++ path ++ ") ===")
                    CLOUD_CONFIG_PATHS ;;
       ret (joined_or "No cloud config directories found" results) |}.

(** network/connections.py *)
Definition get_network_connections : BaseTool Env :=
  {| name := "get_network_connections";
     run := output_of
              "netstat -an | grep -E '(ESTABLISHED|LISTEN)' | head -50" |}.

(** network/interfaces.py *)
Definition get_network_interfaces : BaseTool Env :=
  {| name := "get_network_interfaces";
     run := output_of "ifconfig | grep -E '(^[a-z]|inet )' | head -30" |}.

(** processes/running.py *)
Definition list_running_processes : BaseTool Env :=
  {| name := "list_running_processes";
     run := output_of "ps aux | head -50" |}.

(** processes/apps.py *)
Definition list_installed_apps : BaseTool Env :=
  {| name := "list_installed_apps";
     run := output_of "ls -1 /Applications/ | head -30" |}.

(** processes/persistence.py *)
Definition list_launch_agents : BaseTool Env :=
  {| name := "list_launch_agents";
     run := stdouts_of
              ["echo '=== User Launch Agents ===' && ls -la ~/Library/LaunchAgents/ 2>/dev/null || echo 'None'";
               "echo '=== System Launch Agents ===' && ls -la /Library/LaunchAgents/ 2>/dev/null || echo 'None'"] |}.

(** browser/data.py *)
Definition BROWSER_PATHS : list (string * string) :=
  [("Chrome", "~/Library/Application Support/Google/Chrome");
   ("Firefox", "~/Library/Application Support/Firefox");
   ("Safari", "~/Library/Safari");
   ("Edge", "~/Library/Application Support/Microsoft Edge");
   ("Brave", "~/Library/Application Support/BraveSoftware/Brave-Browser")].

Definition find_browser_data : BaseTool Env :=
  {| name := "find_browser_data";
     run := fun _ =>
       results <- collect_sections
                    (fun '(_, path) =>
                       "ls -la " ++ path ++ " 2>/dev/null | head -10")
                    (fun '(name, _) => "=== " ++ name ++ " ===")
                    BROWSER_PATHS ;;
       ret (joined_or "No browser data found" results) |}.

(** filesystem/sensitive.py *)
Definition SENSITIVE_PATTERNS : list string :=
  ["*.pem"; "*.key"; "*.p12"; "*.pfx"; "*password*"; "*credential*";
   "*.env"; "*secret*"; "*.keystore"; "*.jks"].

Definition find_sensitive_files : BaseTool Env :=
  {| name := "find_sensitive_files";
     run := fun args =>
       let search_path :=
         match get_arg "search_path" args with
         | Some p => p
         | None => "~"
         end in
       let pattern_args :=
         PyStr.join " " (map (fun p => "-name " ++ dq ++ p ++ dq)
                             SENSITIVE_PATTERNS) in
       let cmd := "find " ++ search_path ++ " -maxdepth 4 \( "
                          ++ pattern_args ++ " \) 2>/dev/null | head -30" in
       result <- Base.run_command cmd 60 ;;
       ret (PyStr.or_else (Base.stdout result) "No sensitive files found") |}.

(** shell/command.py: [command] is a required argument. *)
Definition run_shell_command : BaseTool Env :=
  {| name := "run_shell_command";
     run := fun args =>
       match get_arg "command" args with
       | None => raise (ValidationError "command: Field required")
       | Some command =>
           result <- Base.run_command command Base.default_timeout ;;
           ret (Base.format_command_output result)
       end |}.

(** tools/__init__.py: [get_all_tools()], category by category. *)
Definition ALL_TOOLS : list (BaseTool Env) :=
  [get_system_info; get_current_user]
  ++ [list_keychains; find_ssh_keys; find_aws_credentials; find_cloud_configs]
  ++ [get_network_connections; get_network_interfaces]
  ++ [list_running_processes; list_installed_apps; list_launch_agents]
  ++ [find_browser_data]
  ++ [find_sensitive_files]
  ++ [run_shell_command].

End Registry.

End Tools.

(** ** Conversation messages (langchain_core.messages) *)

(** A message identifier: one the sender gave, or one drawn by [uuid4]
    (the [n]-th drawn by the run; two drawn identifiers never coincide). *)
Inductive MessageId : Type :=
| GivenId (s : string)
| Uuid (n : nat).

Definition MessageId_eqb (a b : MessageId) : bool :=
  match a, b with
  | GivenId s, GivenId t => String.eqb s t
  | Uuid n, Uuid m => Nat.eqb n m
  | _, _ => false
  end.

Record ToolCall : Type := {
  tc_name : string;
  tc_args : Tools.Args;
  tc_id : string
}.

Inductive Message : Type :=
| SystemMessage (content : string) (id : option MessageId)
| HumanMessage (content : string) (id : option MessageId)
| AIMessage (content : string) (tool_calls : list ToolCall) (id : option MessageId)
| ToolMessage (content : string) (name : string) (tool_call_id : string)
              (id : option MessageId).

Definition content_of (m : Message) : string :=
  match m with
  | SystemMessage c _ | HumanMessage c _ | AIMessage c _ _ | ToolMessage c _ _ _ => c
  end.

Definition id_of (m : Message) : option MessageId :=
  match m with
  | SystemMessage _ i | HumanMessage _ i | AIMessage _ _ i | ToolMessage _ _ _ i => i
  end.

Definition with_id (i : MessageId) (m : Message) : Message :=
  match m with
  | SystemMessage c _ => SystemMessage c (Some i)
  | HumanMessage c _ => HumanMessage c (Some i)
  | AIMessage c t _ => AIMessage c t (Some i)
  | ToolMessage c n t _ => ToolMessage c n t (Some i)
  end.

(** [hasattr(m, "tool_calls") and m.tool_calls] *)
Definition has_tool_calls (m : Message) : bool :=
  match m with
  | AIMessage _ (_ :: _) _ => true
  | _ => false
  end.

(** The chat model behind [create_llm()]: [llm.invoke(messages)] and
    [llm.bind_tools(tools).invoke(messages)], the tools given by name. *)
Class ChatModel (Env : Type) : Type := {
  llm_invoke : list Message -> M Env Message;
  llm_bind_tools_invoke : list string -> list Message -> M Env Message
}.

(** ** The [add_messages] reducer (langgraph.graph.message) *)

Module Reducer.

(** Every message without an identifier draws one. *)
Fixpoint assign_ids (l : list Message) (next : nat) : list Message * nat :=
  match l with
  | [] => ([], next)
  | m :: r =>
      match id_of m with
      | Some _ => let '(r', n') := assign_ids r next in (m :: r', n')
      | None => let '(r', n') := assign_ids r (S next) in
                (with_id (Uuid next) m :: r', n')
      end
  end.

Definition same_id (a b : Message) : bool :=
  match id_of a, id_of b with
  | Some i, Some j => MessageId_eqb i j
  | _, _ => false
  end.

(** [merged[merged_by_id[m.id]] = m] when the identifier is known. *)
Fixpoint replace_by_id (m : Message) (merged : list Message) : option (list Message) :=
  match merged with
  | [] => None
  | x :: r =>
      match replace_by_id m r with
      | Some r' => Some (x :: r')
      | None => if same_id x m then Some (m :: r) else None
      end
  end.

Definition merge_one (merged : list Message) (m : Message) : list Message :=
  match replace_by_id m merged with
  | Some merged' => merged'
  | None => merged ++ [m]
  end.

Definition add_messages (left right : list Message) (next : nat)
  : list Message * nat :=
  let '(left', n1) := assign_ids left next in
  let '(right', n2) := assign_ids right n1 in
  (fold_left merge_one right' left', n2).

(** The messages [news], identified by the numbers from [next] on. *)
Fixpoint stamp (news : list Message) (next : nat) : list Message :=
  match news with
  | [] => []
  | m :: r => with_id (Uuid next) m :: stamp r (S next)
  end.

Definition known_below (next : nat) (m : Message) : Prop :=
  exists i, id_of m = Some i /\ (forall n, i = Uuid n -> (n < next)%nat).

(** What holds of a transcript kept by the reducer: every message is
    identified, no identifier occurs twice, the drawn ones are below the
    count of identifiers drawn so far. *)
Definition well_identified (l : list Message) (next : nat) : Prop :=
  Forall (known_below next) l /\ NoDup (map id_of l).

End Reducer.

(** ** [state.py] and [agent.py]: the agent state and the nodes *)

Module Agent.

Import State.

Record AgentState : Type := {
  messages : list Message;
  plan : option AssessmentPlan;
  findings : list (list (string * string));
  phase : string
}.

Definition SYSTEM_PROMPT : string :=
"You are a security assessment agent analyzing a macOS endpoint.
Your goal is to identify potential security risks and answer:
- If this endpoint was compromised, what would be the impact?
- Where could an attacker pivot to?
- What data could be stolen?
- What credentials could be taken?

You operate in phases:
1. PLANNING: Create a structured assessment plan based on the objective
2. EXECUTING: Execute your plan using available tools
3. REPORTING: Summarize findings and their security implications

Be thorough but efficient. Focus on high-impact findings.
Always explain the security implications of what you discover.
".

Definition PLANNER_PROMPT : string :=
"Based on the user's objective, create a security assessment plan.

You must respond with a structured plan in this exact format:
OBJECTIVE: <one line summary of what we're assessing>
STEPS:
1. <first step>
2. <second step>
...

Keep steps concrete and actionable. Focus on the most impactful checks first.
Typically 5-10 steps is appropriate for a focused assessment.
".

Definition report_prompt : string :=
"Based on all the findings from this assessment, generate a security report.

Structure your report as:
1. EXECUTIVE SUMMARY - Key risks in 2-3 sentences
2. CRITICAL FINDINGS - High-impact issues requiring immediate attention
3. CREDENTIAL EXPOSURE - Any credentials, keys, or secrets found
4. PIVOT OPPORTUNITIES - Where an attacker could move laterally
5. DATA AT RISK - Sensitive data that could be exfiltrated
6. RECOMMENDATIONS - Prioritized remediation steps

Be specific and actionable.".

Definition step_prompt (current_step : string) : string :=
"Current assessment step: " ++ current_step ++ "

Execute this step using the available tools. Be thorough and note any security-relevant findings.
When done with this step, summarize what you found before moving on.".

(** *** The plan parser of [planner_node] *)

Record ParseState : Type := {
  ps_objective : string;
  ps_steps : list string;
  parsing_steps : bool
}.

(** "Remove numbering like 1. or -" *)
Definition strip_numbering (step : string) : string :=
  match step with
  | EmptyString => step
  | String c _ =>
      if PyStr.isdigit c then PyStr.strip (PyStr.split1_last "." step)
      else if PyStr.startswith step "-" then PyStr.strip (PyStr.tail step)
      else step
  end.

(** One turn of the loop over the lines. *)
Definition parse_line (st : ParseState) (line : string) : ParseState :=
  if PyStr.startswith line "OBJECTIVE:" then
    {| ps_objective := PyStr.strip (PyStr.replace "OBJECTIVE:" "" line);
       ps_steps := ps_steps st;
       parsing_steps := parsing_steps st |}
  else if PyStr.startswith line "STEPS:" then
    {| ps_objective := ps_objective st;
       ps_steps := ps_steps st;
       parsing_steps := true |}
  else if parsing_steps st && PyStr.truthy (PyStr.strip line) then
    let step := strip_numbering (PyStr.strip line) in
    {| ps_objective := ps_objective st;
       ps_steps := if PyStr.truthy step then ps_steps st ++ [step] else ps_steps st;
       parsing_steps := parsing_steps st |}
  else st.

Definition plan_lines (content : string) : list string :=
  PyStr.split PyStr.LF (PyStr.strip content).

Definition parse_lines (lines : list string) : ParseState :=
  fold_left parse_line lines
            {| ps_objective := ""; ps_steps := []; parsing_steps := false |}.

(** From the response text to the plan, as [planner_node] does. *)
Definition parse_plan (content : string) : AssessmentPlan :=
  let st := parse_lines (plan_lines content) in
  new_plan (PyStr.or_else (ps_objective st) "Security assessment") (ps_steps st).

(** No line of the response begins with the objective marker. *)
Definition no_objective_line (content : string) : bool :=
  forallb (fun line => negb (PyStr.startswith line "OBJECTIVE:"))
          (plan_lines content).

(** The response of the specification's example, numbered and bulleted. *)
Definition example_response : string :=
  "OBJECTIVE: Assess X" ++ PyStr.nl ++ "STEPS:" ++ PyStr.nl
  ++ "1. Check Y" ++ PyStr.nl ++ "2. Check Z".

Definition bulleted_response : string :=
  "OBJECTIVE: Assess X" ++ PyStr.nl ++ "STEPS:" ++ PyStr.nl
  ++ "- Check Y" ++ PyStr.nl ++ "- Check Z".

(** *** Routing *)

Inductive Route : Type := R_tools | R_advance | R_report | R_executor.

Definition plan_is_complete (p : option AssessmentPlan) : bool :=
  match p with
  | Some p => is_complete p
  | None => false
  end.

Definition should_continue (state : AgentState) : result Route :=
  bind (py_index (messages state) (-1)) (fun last_message =>
  if has_tool_calls last_message then Ok R_tools
  else if plan_is_complete (plan state) then Ok R_report
  else if String.eqb (phase state) "executing" then Ok R_advance
  else Ok R_executor).

Definition advance_plan (state : AgentState) : AgentState :=
  let plan := match plan state with
              | Some p => Some (advance p)
              | None => None
              end in
  {| messages := messages state;
     plan := plan;
     findings := findings state;
     phase := phase state |}.

(** *** The nodes that query the model *)

Section Nodes.
Context {Env : Type} `{Subprocess Env} `{ChatModel Env}.

Definition planner_node (state : AgentState) : M Env AgentState :=
  let messages :=
    SystemMessage (SYSTEM_PROMPT ++ PyStr.nl ++ PyStr.nl ++ PLANNER_PROMPT) None
    :: messages state in
  response <- llm_invoke messages ;;
  let plan := parse_plan (content_of response) in
  ret {| messages := Agent.messages state ++ [response];
         plan := Some plan;
         findings := findings state;
         phase := "executing" |}.

(** [str(x)] of an optional step inside the f-string. *)
Definition str_of_step (s : option string) : string :=
  match s with
  | Some s => s
  | None => "None"
  end.

Definition tool_names : list string :=
  map Tools.name (Tools.ALL_TOOLS (Env := Env)).

Definition executor_node (state : AgentState) : M Env AgentState :=
  current_step <-
    match plan state with
    | Some plan => fun env => (next_step plan, env)
    | None => ret (Some "Perform a general security assessment")
    end ;;
  let prompt := HumanMessage (step_prompt (str_of_step current_step)) None in
  let messages := SystemMessage SYSTEM_PROMPT None :: messages state ++ [prompt] in
  response <- llm_bind_tools_invoke tool_names messages ;;
  ret {| messages := Agent.messages state ++ [prompt; response];
         plan := plan state;
         findings := findings state;
         phase := phase state |}.

Definition reporter_node (state : AgentState) : M Env AgentState :=
  let prompt := HumanMessage report_prompt None in
  let messages := SystemMessage SYSTEM_PROMPT None :: messages state ++ [prompt] in
  response <- llm_invoke messages ;;
  ret {| messages := Agent.messages state ++ [prompt; response];
         plan := plan state;
         findings := findings state;
         phase := "complete" |}.

(** *** [ToolNode(ALL_TOOLS)] (langgraph.prebuilt)

    Every tool call of the last message is run in the order requested; an
    unknown name or a failing tool becomes an error text, never an
    exception. *)

Fixpoint find_tool (name : string) (tools : list (Tools.BaseTool Env))
  : option (Tools.BaseTool Env) :=
  match tools with
  | [] => None
  | t :: r => if String.eqb (Tools.name t) name then Some t else find_tool name r
  end.

Definition run_tool_call (call : ToolCall) : M Env Message :=
  match find_tool (tc_name call) Tools.ALL_TOOLS with
  | None =>
      ret (ToolMessage ("Error: " ++ tc_name call
                                  ++ " is not a valid tool, try one of ["
                                  ++ PyStr.join ", " tool_names ++ "].")
                       (tc_name call) (tc_id call) None)
  | Some t =>
      fun env =>
        match Tools.run t (tc_args call) env with
        | (Ok content, env') =>
            (Ok (ToolMessage content (tc_name call) (tc_id call) None), env')
        | (Raise e, env') =>
            (Ok (ToolMessage ("Error: " ++ str_of_exception e ++ PyStr.nl
                                        ++ " Please fix your mistakes.")
                             (tc_name call) (tc_id call) None), env')
        end
  end.

Definition tool_node (state : AgentState) : M Env (list Message) :=
  match py_index (messages state) (-1) with
  | Ok (AIMessage _ calls _) => mapM run_tool_call calls
  | Ok _ => raise (ValueError "Last message is not an AIMessage")
  | Raise _ => raise (ValueError "No message found in input")
  end.

(** *** [create_agent_graph]: the compiled graph and its run

    A node's return value is written to the state: [messages] through the
    [add_messages] reducer, every other key by overwriting.  The routing
    function of a conditional edge reads the state after that write. *)

Inductive Node : Type :=
| N_planner | N_executor | N_tools | N_advance | N_reporter | END.

(** What a node returns: the keys it sets. *)
Record Update : Type := {
  u_messages : list Message;
  u_rest : option (option AssessmentPlan * list (list (string * string)) * string)
}.

(** [{**state, ...}]: all four keys. *)
Definition whole (state : AgentState) : Update :=
  {| u_messages := messages state;
     u_rest := Some (plan state, findings state, phase state) |}.

(** The plan a node's update leaves in the state. *)
Definition plan_written (u : Update) (old : option AssessmentPlan)
  : option AssessmentPlan :=
  match u_rest u with
  | Some (p, _, _) => p
  | None => old
  end.

Definition phase_written (u : Update) (old : string) : string :=
  match u_rest u with
  | Some (_, _, ph) => ph
  | None => old
  end.

(** The plan after each event of a run that starts with the plan [p]. *)
Fixpoint plans_after (events : list (Node * Update)) (p : option AssessmentPlan)
  : list (option AssessmentPlan) :=
  match events with
  | [] => []
  | (_, u) :: r => plan_written u p :: plans_after r (plan_written u p)
  end.

(** What a node other than the planner may do to the plan: the advance
    node calls [advance] on it, the others leave it alone. *)
Definition plan_effect (n : Node) (p : option AssessmentPlan)
  : option AssessmentPlan :=
  match n with
  | N_advance => option_map advance p
  | _ => p
  end.

Fixpoint plan_effects (nodes : list Node) (p : option AssessmentPlan)
  : list (option AssessmentPlan) :=
  match nodes with
  | [] => []
  | n :: r => plan_effect n p :: plan_effects r (plan_effect n p)
  end.

(** The plan invariant on a state that may have no plan yet. *)
Definition plan_in_range (p : option AssessmentPlan) : Prop :=
  match p with
  | Some p => cursor_in_range p
  | None => True
  end.

(** The state of a run: the channels and the count of identifiers drawn. *)
Record Channels : Type := {
  values : AgentState;
  drawn : nat
}.

Definition write (ch : Channels) (u : Update) : Channels :=
  let '(msgs, n) :=
    Reducer.add_messages (messages (values ch)) (u_messages u) (drawn ch) in
  {| values :=
       match u_rest u with
       | Some (p, f, ph) =>
           {| messages := msgs; plan := p; findings := f; phase := ph |}
       | None =>
           {| messages := msgs;
              plan := plan (values ch);
              findings := findings (values ch);
              phase := phase (values ch) |}
       end;
     drawn := n |}.

(** The advance node is entered only with a plan that is not complete. *)
Definition guarded (n : Node) (ch : Channels) : Prop :=
  plan_in_range (plan (values ch))
  /\ (n = N_advance -> plan_is_complete (plan (values ch)) = false).

(** [graph.add_node(...)]: the function behind each node name. *)
Definition run_node (n : Node) (state : AgentState) : M Env Update :=
  match n with
  | N_planner => s <- planner_node state ;; ret (whole s)
  | N_executor => s <- executor_node state ;; ret (whole s)
  | N_tools => msgs <- tool_node state ;;
               ret {| u_messages := msgs; u_rest := None |}
  | N_advance => ret (whole (advance_plan state))
  | N_reporter => s <- reporter_node state ;; ret (whole s)
  | END => ret (whole state)
  end.

(** The mapping given to [add_conditional_edges]. *)
Definition route_target (r : Route) : Node :=
  match r with
  | R_tools => N_tools
  | R_advance => N_advance
  | R_report => N_reporter
  | R_executor => N_executor
  end.

(** [add_edge] and [add_conditional_edges]: the node that follows [n], the
    state being the one [n] has just written. *)
Definition next_node (n : Node) (state : AgentState) : result Node :=
  match n with
  | N_planner => Ok N_executor
  | N_executor => bind (should_continue state) (fun r => Ok (route_target r))
  | N_tools => Ok N_executor
  | N_advance => Ok N_executor
  | N_reporter => Ok END
  | END => Ok END
  end.

(** One step of the run: the node runs, its update is written, the edge is
    followed. *)
Definition step (n : Node) (ch : Channels) : M Env (Update * Channels * Node) :=
  u <- run_node n (values ch) ;;
  let ch' := write ch u in
  fun env =>
    match next_node n (values ch') with
    | Ok n' => (Ok (u, ch', n'), env)
    | Raise e => (Raise e, env)
    end.

(** The events of [agent.stream]: each node that ran, with its update. *)
Definition Event : Type := (Node * Update)%type.

(** The run from node [n], at most [limit] steps (the recursion limit). *)
Fixpoint run_from (limit : nat) (n : Node) (ch : Channels)
  : M Env (list Event * Channels) :=
  match n with
  | END => ret ([], ch)
  | _ =>
      match limit with
      | O => raise GraphRecursionError
      | S k =>
          r <- step n ch ;;
          let '(u, ch', n') := r in
          r' <- run_from k n' ch' ;;
          let '(events, final) := r' in
          ret ((n, u) :: events, final)
      end
  end.

(** How many of the events are runs of the advance node. *)
Fixpoint advances (events : list Event) : nat :=
  match events with
  | [] => O
  | (N_advance, _) :: r => S (advances r)
  | _ :: r => advances r
  end.

(** The tool call a message answers. *)
Definition answered (m : Message) : option (string * string) :=
  match m with
  | ToolMessage _ name tool_call_id _ => Some (name, tool_call_id)
  | _ => None
  end.

(** How many messages an event adds to the transcript. *)
Definition appended (ev : Event) : nat :=
  match ev with
  | (N_planner, _) => 1
  | (N_executor, _) => 2
  | (N_tools, u) => List.length (u_messages u)
  | (N_advance, _) => 0
  | (N_reporter, _) => 2
  | (END, _) => 0
  end.

Definition appended_total (events : list Event) : nat :=
  fold_right (fun ev n => (appended ev + n)%nat) O events.

(** The executor and the advance node, [k] times in turn. *)
Fixpoint executor_advance (k : nat) : list Node :=
  match k with
  | O => []
  | S k => N_executor :: N_advance :: executor_advance k
  end.

(** The model's answers come without identifiers. *)
Definition anonymous_model : Prop :=
  forall (msgs : list Message) (env env' : Env) (m : Message),
    (llm_invoke msgs env = (Ok m, env') -> id_of m = None)
    /\ (forall tools, llm_bind_tools_invoke tools msgs env = (Ok m, env') ->
         id_of m = None).

(** The model never asks for a tool. *)
Definition never_requests_tools : Prop :=
  forall (tools : list string) (msgs : list Message) (env env' : Env) (m : Message),
    llm_bind_tools_invoke tools msgs env = (Ok m, env') -> has_tool_calls m = false.

(** The model answers every query. *)
Definition model_always_answers : Prop :=
  (forall msgs, never_raises (llm_invoke msgs))
  /\ (forall tools msgs, never_raises (llm_bind_tools_invoke tools msgs)).

(** The exception [e] is one the model raised on some query. *)
Definition raised_by_model (e : exception) : Prop :=
  exists (msgs : list Message) (env : Env),
    fst (llm_invoke msgs env) = Raise e
    \/ exists tools, fst (llm_bind_tools_invoke tools msgs env) = Raise e.

Definition recursion_limit : nat := 25.

Definition empty_channels : Channels :=
  {| values := {| messages := []; plan := None; findings := []; phase := "" |};
     drawn := O |}.

(** [agent.stream(initial_state)]: the input is written, then the graph
    runs from its entry point. *)
Definition stream (initial_state : AgentState) : M Env (list Event * Channels) :=
  run_from recursion_limit N_planner (write empty_channels (whole initial_state)).

End Nodes.

(** [run_assessment] of [cli.py]: the state a run starts from. *)
Definition initial_state (objective : string) : AgentState :=
  {| messages := [HumanMessage objective None];
     plan := None;
     findings := [];
     phase := "planning" |}.

End Agent.

(** ** A host on which no command can be started *)

Module DeadHost.

Definition dead_subprocess_run (command : string) (_ : bool) (_ : Z)
  : M unit CompletedProcess :=
  raise (OSError "[Errno 2] No such file or directory: '/bin/sh'").

#[export] Instance dead_subprocess : Subprocess unit :=
  {| subprocess_run := dead_subprocess_run |}.

End DeadHost.

(** ** A model that plans two steps and never asks for a tool *)

Module QuietModel.

Definition two_steps : string :=
  "OBJECTIVE: look around" ++ PyStr.nl ++ "STEPS:" ++ PyStr.nl
  ++ "1. list the keys" ++ PyStr.nl ++ "2. list the agents".

Definition quiet_invoke (_ : list Message) : M unit Message :=
  ret (AIMessage two_steps [] None).

Definition quiet_bind_tools_invoke (_ : list string) (_ : list Message)
  : M unit Message :=
  ret (AIMessage "Nothing to add." [] None).

#[export] Instance quiet_model : ChatModel unit :=
  {| llm_invoke := quiet_invoke;
     llm_bind_tools_invoke := quiet_bind_tools_invoke |}.

End QuietModel.

(** ** The end-to-end scenario: a scripted model and a scripted host *)

Module Scenario.

Import Agent.

(** The host of the test: it counts the queries to the model, logs the
    commands it is asked to run, and answers every command with [outcome]. *)
Record Mock : Type := {
  plain_calls : nat;
  tool_calls_made : nat;
  commands_run : list string;
  outcome : result CompletedProcess
}.

Definition plan_text : string :=
  "OBJECTIVE: list SSH keys" ++ PyStr.nl ++ "STEPS:" ++ PyStr.nl ++ "1. find_ssh_keys".

Definition the_call : ToolCall :=
  {| tc_name := "find_ssh_keys"; tc_args := []; tc_id := "call_1" |}.

(** Without tools the model is asked twice at most: for the plan first, for
    the report afterwards. *)
Definition mock_invoke (_ : list Message) : M Mock Message :=
  fun env =>
    (Ok (AIMessage (if Nat.eqb (plain_calls env) 0 then plan_text else "REPORT")
                   [] None),
     {| plain_calls := S (plain_calls env);
        tool_calls_made := tool_calls_made env;
        commands_run := commands_run env;
        outcome := outcome env |}).

(** With tools bound: the first turn requests [find_ssh_keys] with no
    arguments, every later turn is plain text. *)
Definition mock_bind_tools_invoke (_ : list string) (_ : list Message)
  : M Mock Message :=
  fun env =>
    (Ok (if Nat.eqb (tool_calls_made env) 0
         then AIMessage "" [the_call] None
         else AIMessage "Step done." [] None),
     {| plain_calls := plain_calls env;
        tool_calls_made := S (tool_calls_made env);
        commands_run := commands_run env;
        outcome := outcome env |}).

Definition mock_subprocess_run (command : string) (_ : bool) (_ : Z)
  : M Mock CompletedProcess :=
  fun env =>
    (outcome env,
     {| plain_calls := plain_calls env;
        tool_calls_made := tool_calls_made env;
        commands_run := commands_run env ++ [command];
        outcome := outcome env |}).

#[export] Instance mock_subprocess : Subprocess Mock :=
  {| subprocess_run := mock_subprocess_run |}.

#[export] Instance mock_chat_model : ChatModel Mock :=
  {| llm_invoke := mock_invoke;
     llm_bind_tools_invoke := mock_bind_tools_invoke |}.

Definition fresh (o : result CompletedProcess) : Mock :=
  {| plain_calls := O; tool_calls_made := O; commands_run := []; outcome := o |}.

(** The whole run of the scenario. *)
Definition run (objective : string) (o : result CompletedProcess)
  : result (list Event * Channels) * Mock :=
  stream (initial_state objective) (fresh o).

Definition nodes_of (events : list Event) : list Node := map fst events.

(** A host where the command lists one key. *)
Definition listing : result CompletedProcess :=
  Ok {| cp_stdout := "id_ed25519"; cp_stderr := ""; cp_returncode := 0 |}.

(** What [find_ssh_keys] returns on that host: [result.output] of the
    command runner's result. *)
Definition tool_text (o : result CompletedProcess) : string :=
  match o with
  | Ok done => PyStr.or_else (cp_stdout done) (cp_stderr done)
  | Raise (TimeoutExpired _ _) => "Command timed out after 30s"
  | Raise e => str_of_exception e
  end.

(** The transcript the run ends with, in the order of appending. *)
Definition expected_transcript (objective : string) (o : result CompletedProcess)
  : list Message :=
  [ HumanMessage objective (Some (Uuid 0));
    AIMessage plan_text [] (Some (Uuid 1));
    HumanMessage (step_prompt "find_ssh_keys") (Some (Uuid 2));
    AIMessage "" [the_call] (Some (Uuid 3));
    ToolMessage (tool_text o) "find_ssh_keys" "call_1" (Some (Uuid 4));
    HumanMessage (step_prompt "find_ssh_keys") (Some (Uuid 5));
    AIMessage "Step done." [] (Some (Uuid 6));
    HumanMessage (step_prompt "None") (Some (Uuid 7));
    AIMessage "Step done." [] (Some (Uuid 8));
    HumanMessage report_prompt (Some (Uuid 9));
    AIMessage "REPORT" [] (Some (Uuid 10)) ].

(** For each event: the node and how many messages it returned. *)
Definition returned_sizes (events : list Event) : list (Node * nat) :=
  map (fun ev => (fst ev, List.length (u_messages (snd ev)))) events.

Definition ssh_command : string :=
  "ls -la ~/.ssh/ 2>/dev/null || echo 'No .ssh directory found'".

End Scenario.

(** * Properties *)

(** ** The plan *)

Section PlanProperties.
Import State.

Lemma advance_n_succ (n : nat) (p : AssessmentPlan) :
  advance_n (S n) p = advance (advance_n n p).
Proof.
  revert p. induction n as [|n IH]; intros p.
  - reflexivity.
  - change (advance_n (S (S n)) p) with (advance_n (S n) (advance p)).
    rewrite IH. reflexivity.
Qed.

Lemma advance_n_frame (n : nat) (p : AssessmentPlan) :
  objective (advance_n n p) = objective p
  /\ steps (advance_n n p) = steps p
  /\ findings (advance_n n p) = findings p
  /\ current_step (advance_n n p) = current_step p + Z.of_nat n.
Proof.
  revert p. induction n as [|n IH]; intros p.
  - cbn. repeat split. lia.
  - destruct (IH (advance p)) as (Ho & Hs & Hf & Hc).
    change (advance_n (S n) p) with (advance_n n (advance p)).
    rewrite Ho, Hs, Hf, Hc. cbn. repeat split. lia.
Qed.

Lemma is_complete_spec (p : AssessmentPlan) :
  is_complete p = true <-> len_steps p <= current_step p.
Proof. unfold is_complete. apply Z.leb_le. Qed.

Lemma is_incomplete_spec (p : AssessmentPlan) :
  is_complete p = false <-> current_step p < len_steps p.
Proof. unfold is_complete. rewrite Z.leb_gt. reflexivity. Qed.

Lemma len_steps_advance (p : AssessmentPlan) : len_steps (advance p) = len_steps p.
Proof. reflexivity. Qed.

Lemma advance_in_range (p : AssessmentPlan) :
  cursor_in_range p -> is_complete p = false -> cursor_in_range (advance p).
Proof.
  unfold cursor_in_range. intros Hr Hc. apply is_incomplete_spec in Hc.
  rewrite len_steps_advance. cbn. lia.
Qed.

(** C1, as stated, fails: a one-step plan that has been advanced once is
    complete and within range; advancing it again changes it and puts the
    cursor at 2, beyond its single step. *)
Lemma C1_advance_overruns_complete_plan :
  let p := advance (new_plan "list SSH keys" ["find_ssh_keys"]) in
  is_complete p = true
  /\ cursor_in_range p
  /\ advance p <> p
  /\ ~ cursor_in_range (advance p).
Proof.
  cbn. repeat split.
  - unfold cursor_in_range. cbn. lia.
  - unfold cursor_in_range. cbn. lia.
  - discriminate.
  - unfold cursor_in_range. cbn. lia.
Qed.

(** C1 (amended): for a plan with 0 <= cursor <= len(steps), the invariant
    holds after any sequence of operations in which every advance() meets a
    plan that is not complete; advance() itself is unguarded, so once the
    resulting plan is complete one more advance() puts the cursor at
    len(steps) + 1. *)
Theorem C1_cursor_in_range_while_incomplete (ops : list Op) (p : AssessmentPlan) :
  cursor_in_range p ->
  advances_incomplete_only ops p = true ->
  cursor_in_range (apply_ops ops p)
  /\ (is_complete (apply_ops ops p) = true ->
      current_step (advance (apply_ops ops p)) = len_steps (apply_ops ops p) + 1).
Proof.
  intros Hr Hg.
  assert (Hfinal : cursor_in_range (apply_ops ops p)).
  { revert p Hr Hg. induction ops as [|o ops IH]; intros p Hr Hg.
    - exact Hr.
    - cbn in Hg. apply andb_true_iff in Hg as [Ho Hg].
      cbn. apply IH; [|exact Hg].
      destruct o; cbn; try exact Hr.
      apply advance_in_range; [exact Hr|].
      now apply negb_true_iff in Ho. }
  split; [exact Hfinal|].
  intros Hc. apply is_complete_spec in Hc.
  unfold cursor_in_range in Hfinal. cbn. lia.
Qed.

Lemma C1_cursor_in_range_while_incomplete_witness :
  let p := new_plan "list SSH keys" ["find_ssh_keys"; "list_keychains"] in
  let ops := [Op_next_step; Op_advance; Op_is_complete; Op_advance] in
  cursor_in_range (apply_ops ops p)
  /\ (is_complete (apply_ops ops p) = true ->
      current_step (advance (apply_ops ops p)) = len_steps (apply_ops ops p) + 1).
Proof.
  intros p ops.
  apply (C1_cursor_in_range_while_incomplete ops p).
  - unfold cursor_in_range. cbn. lia.
  - reflexivity.
Defined.

(** C7, as stated, fails: the empty plan advanced once is complete although
    its cursor, 1, differs from its number of steps, 0. *)
Lemma C7_complete_with_cursor_beyond_steps :
  ~ (forall p : AssessmentPlan,
       is_complete p = true <-> current_step p = len_steps p).
Proof.
  intros Hall.
  destruct (Hall (advance (new_plan "list SSH keys" []))) as [Hto _].
  specialize (Hto eq_refl). discriminate Hto.
Qed.

(** C7 (amended): is_complete() returns true if and only if
    cursor >= len(steps); among plans with cursor <= len(steps) that is the
    case exactly when cursor == len(steps); and it returns true for any plan
    constructed with zero steps, however often it is advanced. *)
Theorem C7_is_complete_iff_cursor_reached_end (p : AssessmentPlan) :
  (is_complete p = true <-> len_steps p <= current_step p)
  /\ is_complete p && (current_step p <=? len_steps p)
     = (current_step p =? len_steps p)
  /\ (forall (o : string) (n : nat),
        is_complete (advance_n n (new_plan o [])) = true).
Proof.
  split; [apply is_complete_spec|]. split.
  - unfold is_complete.
    destruct (Z.leb_spec (len_steps p) (current_step p));
      destruct (Z.leb_spec (current_step p) (len_steps p));
      destruct (Z.eqb_spec (current_step p) (len_steps p)); cbn; lia.
  - intros o n. apply is_complete_spec.
    destruct (advance_n_frame n (new_plan o [])) as (_ & Hs & _ & Hc).
    unfold len_steps. rewrite Hs, Hc. cbn. lia.
Qed.

(** C9: once is_complete() is true it stays true under any number of
    further advance() calls, each of which still adds one to the cursor. *)
Theorem C9_completion_is_monotone (p : AssessmentPlan) (n : nat) :
  is_complete p = true ->
  is_complete (advance_n n p) = true
  /\ current_step (advance_n n p) = current_step p + Z.of_nat n
  /\ len_steps (advance_n n p) + Z.of_nat n <= current_step (advance_n n p).
Proof.
  intros Hc. apply is_complete_spec in Hc.
  destruct (advance_n_frame n p) as (_ & Hs & _ & Hcur).
  assert (Hlen : len_steps (advance_n n p) = len_steps p)
    by (unfold len_steps; now rewrite Hs).
  split; [|split].
  - apply is_complete_spec. lia.
  - exact Hcur.
  - lia.
Qed.

Lemma C9_completion_is_monotone_witness :
  let p := advance (new_plan "list SSH keys" ["find_ssh_keys"]) in
  is_complete (advance_n 3 p) = true
  /\ current_step (advance_n 3 p) = current_step p + Z.of_nat 3
  /\ len_steps (advance_n 3 p) + Z.of_nat 3 <= current_step (advance_n 3 p).
Proof.
  intros p. apply (C9_completion_is_monotone p 3). reflexivity.
Defined.

End PlanProperties.

(** ** The command runner and the formatter *)

Section StringFacts.

Lemma truthy_iff_nonempty (s : string) : PyStr.truthy s = true <-> s <> "".
Proof. destruct s; cbn; split; intros; congruence. Qed.

Lemma truthy_app_r (a b : string) :
  PyStr.truthy b = true -> PyStr.truthy (a ++ b) = true.
Proof. destruct a; cbn; auto. Qed.

Lemma or_else_truthy (a b : string) :
  PyStr.truthy a = true -> PyStr.or_else a b = a.
Proof. unfold PyStr.or_else. now intros ->. Qed.

Lemma or_else_nonempty (a b : string) : b <> "" -> PyStr.or_else a b <> "".
Proof.
  unfold PyStr.or_else. destruct a; cbn; [auto | discriminate].
Qed.

Lemma app_assoc_string (a b c : string) : (a ++ b) ++ c = a ++ b ++ c.
Proof. induction a as [|x a IH]; cbn; [reflexivity | now rewrite IH]. Qed.

Lemma app_empty_r (a : string) : a ++ "" = a.
Proof. induction a as [|x a IH]; cbn; [reflexivity | now rewrite IH]. Qed.

Lemma contains_middle (a b c : string) : PyStr.contains (a ++ b ++ c) b.
Proof. now exists a, c. Qed.

Lemma contains_suffix (a b : string) : PyStr.contains (a ++ b) b.
Proof. exists a, "". now rewrite app_empty_r. Qed.

End StringFacts.

Section RunnerProperties.
Context {Env : Type} `{Subprocess Env}.
Import Base.

(** C4: run_command never raises.  A completed command yields its exit
    code and its captured streams unchanged; an expired timeout yields empty
    stdout, exit code -1 and the message naming the configured timeout; any
    other exception yields empty stdout, exit code -1 and the text of the
    exception. *)
Theorem C4_run_command_never_raises (command : string) (timeout : Z) (env : Env) :
  exists r : CommandResult,
    run_command command timeout env
    = (Ok r, snd (subprocess_run command true timeout env))
    /\ match fst (subprocess_run command true timeout env) with
       | Ok done =>
           stdout r = cp_stdout done
           /\ stderr r = cp_stderr done
           /\ returncode r = cp_returncode done
       | Raise (TimeoutExpired _ _) =>
           stdout r = ""
           /\ returncode r = -1
           /\ stderr r = "Command timed out after "
                         ++ PyStr.str_of_int timeout ++ "s"
           /\ PyStr.contains (stderr r) (PyStr.str_of_int timeout)
       | Raise e =>
           stdout r = ""
           /\ returncode r = -1
           /\ stderr r = str_of_exception e
       end.
Proof.
  unfold run_command, run_command_with.
  destruct (subprocess_run command true timeout env) as [[done | e] env'].
  - eexists. split; [reflexivity|]. cbn. auto.
  - destruct e; eexists; (split; [reflexivity|]); cbn; auto.
    repeat split. now exists "Command timed out after ", "s".
Qed.

End RunnerProperties.

Section FormatterProperties.
Import Base.

Lemma return_code_suffix_truthy (a : string) (n : Z) :
  PyStr.truthy (a ++ PyStr.nl ++ "Return code: " ++ PyStr.str_of_int n) = true.
Proof. apply truthy_app_r. reflexivity. Qed.

(** C6, as stated, fails: with empty stdout, stderr "Permission denied" and
    exit code 1 the formatted text is not the stderr text alone; the return
    code follows it. *)
Lemma C6_stderr_is_followed_by_return_code :
  let r := {| stdout := ""; stderr := "Permission denied"; returncode := 1 |} in
  format_command_output r
  = "Permission denied" ++ PyStr.nl ++ "Return code: 1"
  /\ format_command_output r <> stderr r.
Proof. cbn. split; [reflexivity | discriminate]. Qed.

(** C6 (amended): with the default options, a result with empty stdout and
    non-empty stderr is formatted as exactly the stderr text when its exit
    code is 0, and as the stderr text followed by a newline and
    "Return code: <code>" otherwise; and for every result with a non-zero
    exit code the formatted text contains "Return code: <code>". *)
Theorem C6_format_prefers_stderr_and_reports_failure (r : CommandResult) :
  (stdout r = "" -> stderr r <> "" ->
   format_command_output r
   = if returncode r =? 0 then stderr r
     else stderr r ++ PyStr.nl ++ "Return code: "
                   ++ PyStr.str_of_int (returncode r))
  /\ (returncode r <> 0 ->
      PyStr.contains (format_command_output r)
                     ("Return code: " ++ PyStr.str_of_int (returncode r))).
Proof.
  unfold format_command_output, format_command_output_with, success.
  split.
  - intros Hout Herr. apply truthy_iff_nonempty in Herr.
    rewrite Hout, Herr. cbn.
    destruct (returncode r =? 0); cbn.
    + now apply or_else_truthy.
    + apply or_else_truthy, return_code_suffix_truthy.
  - intros Hrc. apply Z.eqb_neq in Hrc. rewrite Hrc.
    change (true && negb false) with true. cbv iota.
    rewrite or_else_truthy by apply return_code_suffix_truthy.
    match goal with
    | |- PyStr.contains (?out ++ _ ++ _) _ => exists (out ++ PyStr.nl), ""
    end.
    now rewrite app_empty_r, app_assoc_string.
Qed.

Lemma C6_format_prefers_stderr_and_reports_failure_witness :
  let r := {| stdout := ""; stderr := "Permission denied"; returncode := 1 |} in
  format_command_output r
  = "Permission denied" ++ PyStr.nl ++ "Return code: 1"
  /\ PyStr.contains (format_command_output r) "Return code: 1".
Proof.
  intros r.
  destruct (C6_format_prefers_stderr_and_reports_failure r) as [Hfmt Hrc].
  split.
  - apply Hfmt; [reflexivity | discriminate].
  - apply Hrc. discriminate.
Defined.

(** C10: whatever the options, format_command_output never returns the
    empty string, and a result with empty stdout, empty stderr and exit code
    0 is formatted as "(no output)". *)
Theorem C10_format_is_never_empty :
  (forall (r : CommandResult) (include_stderr include_returncode : bool),
     format_command_output_with r include_stderr include_returncode <> "")
  /\ (forall include_stderr include_returncode : bool,
        format_command_output_with
          {| stdout := ""; stderr := ""; returncode := 0 |}
          include_stderr include_returncode
        = "(no output)").
Proof.
  split.
  - intros r b1 b2. unfold format_command_output_with.
    apply or_else_nonempty. discriminate.
  - intros [|] [|]; reflexivity.
Qed.

End FormatterProperties.

(** ** The plan parser *)

Section ParserProperties.
Import State Agent.

Lemma lstrip_padding (pre s : string) :
  PyStr.all_space pre = true -> PyStr.lstrip (pre ++ s) = PyStr.lstrip s.
Proof.
  induction pre as [|c pre IH]; cbn; [reflexivity|].
  intros Hsp. apply andb_true_iff in Hsp as [Hc Hpre].
  rewrite Hc. auto.
Qed.

Lemma rstrip_all_space (s : string) :
  PyStr.all_space s = true -> PyStr.rstrip s = "".
Proof.
  induction s as [|c s IH]; cbn; [reflexivity|].
  intros Hsp. apply andb_true_iff in Hsp as [Hc Hs].
  rewrite (IH Hs), Hc. reflexivity.
Qed.

Lemma rstrip_padding (s post : string) :
  PyStr.all_space post = true -> PyStr.rstrip (s ++ post) = PyStr.rstrip s.
Proof.
  intros Hsp. induction s as [|c s IH]; cbn.
  - now apply rstrip_all_space.
  - now rewrite IH.
Qed.

(** Whitespace around a response that is already stripped and begins with
    a visible character does not change the lines that are parsed. *)
Lemma plan_lines_padding (pre post : string) (c : ascii) (s : string) :
  PyStr.all_space pre = true ->
  PyStr.all_space post = true ->
  PyStr.isspace c = false ->
  plan_lines (pre ++ String c s ++ post) = plan_lines (String c s).
Proof.
  intros Hpre Hpost Hc. unfold plan_lines, PyStr.strip.
  rewrite lstrip_padding by exact Hpre.
  change (String c s ++ post) with (String c (s ++ post)).
  change (PyStr.lstrip (String c (s ++ post)))
    with (if PyStr.isspace c then PyStr.lstrip (s ++ post) else String c (s ++ post)).
  change (PyStr.lstrip (String c s))
    with (if PyStr.isspace c then PyStr.lstrip s else String c s).
  rewrite Hc.
  change (String c (s ++ post)) with (String c s ++ post).
  now rewrite rstrip_padding.
Qed.

Lemma parse_line_keeps_empty_objective (st : ParseState) (line : string) :
  PyStr.startswith line "OBJECTIVE:" = false ->
  ps_objective (parse_line st line) = ps_objective st.
Proof.
  intros Hno. unfold parse_line. rewrite Hno.
  destruct (PyStr.startswith line "STEPS:"); [reflexivity|].
  destruct (parsing_steps st && PyStr.truthy (PyStr.strip line)); reflexivity.
Qed.

Lemma fold_keeps_empty_objective (lines : list string) (st : ParseState) :
  forallb (fun line => negb (PyStr.startswith line "OBJECTIVE:")) lines = true ->
  ps_objective (fold_left parse_line lines st) = ps_objective st.
Proof.
  revert st. induction lines as [|line lines IH]; intros st Hall; cbn.
  - reflexivity.
  - cbn in Hall. apply andb_true_iff in Hall as [Hline Hall].
    rewrite (IH _ Hall). apply parse_line_keeps_empty_objective.
    now apply negb_true_iff in Hline.
Qed.

(** C5: the response of the example parses to the objective "Assess X" and
    exactly the steps "Check Y" and "Check Z", the numbering stripped; so
    does the same response with bullets, and with any whitespace around it;
    and a response none of whose lines begins with "OBJECTIVE:" gets the
    objective "Security assessment". *)
Theorem C5_plan_parsing :
  parse_plan example_response = new_plan "Assess X" ["Check Y"; "Check Z"]
  /\ parse_plan bulleted_response = new_plan "Assess X" ["Check Y"; "Check Z"]
  /\ (forall pre post : string,
        PyStr.all_space pre = true -> PyStr.all_space post = true ->
        parse_plan (pre ++ example_response ++ post)
        = new_plan "Assess X" ["Check Y"; "Check Z"])
  /\ (forall content : string,
        no_objective_line content = true ->
        objective (parse_plan content) = "Security assessment").
Proof.
  split; [reflexivity|]. split; [reflexivity|]. split.
  - intros pre post Hpre Hpost. unfold parse_plan.
    change example_response
      with (String "O" ("BJECTIVE: Assess X" ++ PyStr.nl ++ "STEPS:" ++ PyStr.nl
                         ++ "1. Check Y" ++ PyStr.nl ++ "2. Check Z")).
    rewrite plan_lines_padding by (assumption || reflexivity).
    reflexivity.
  - intros content Hno. unfold parse_plan, parse_lines, no_objective_line in *.
    rewrite (fold_keeps_empty_objective _ _ Hno). reflexivity.
Qed.

Lemma C5_plan_parsing_witness :
  parse_plan ("  " ++ example_response ++ PyStr.nl)
  = new_plan "Assess X" ["Check Y"; "Check Z"]
  /\ objective (parse_plan ("STEPS:" ++ PyStr.nl ++ "1. Check Y"))
     = "Security assessment".
Proof.
  destruct C5_plan_parsing as (_ & _ & Hpad & Hdefault).
  split.
  - apply (Hpad "  " PyStr.nl); reflexivity.
  - apply Hdefault. reflexivity.
Defined.

End ParserProperties.

(** ** The phase loop *)

Lemma py_index_last {A : Type} (earlier : list A) (x : A) :
  py_index (earlier ++ [x])%list (-1) = Ok x.
Proof.
  unfold py_index. rewrite length_app. cbn [List.length].
  change (-1 <? 0) with true. cbv iota.
  replace (-1 + Z.of_nat (List.length earlier + 1))
    with (Z.of_nat (List.length earlier)) by lia.
  destruct (Z.ltb_spec (Z.of_nat (List.length earlier)) 0) as [Hneg|_]; [lia|].
  destruct (Z.leb_spec (Z.of_nat (List.length earlier + 1))
                       (Z.of_nat (List.length earlier))) as [Hle|_]; [lia|].
  cbn [orb]. rewrite Nat2Z.id.
  rewrite nth_error_app2 by lia. rewrite Nat.sub_diag. reflexivity.
Qed.

Section LoopProperties.
Context {Env : Type} `{Subprocess Env} `{ChatModel Env}.
Import State Agent.

Lemma plan_after_write (ch : Channels) (u : Update) :
  plan (values (write ch u)) = plan_written u (plan (values ch)).
Proof.
  unfold write, plan_written.
  destruct (Reducer.add_messages _ _ _) as [msgs n].
  destruct (u_rest u) as [[[p f] ph]|]; reflexivity.
Qed.

Lemma phase_after_write (ch : Channels) (u : Update) :
  phase (values (write ch u)) = phase_written u (phase (values ch)).
Proof.
  unfold write, phase_written.
  destruct (Reducer.add_messages _ _ _) as [msgs n].
  destruct (u_rest u) as [[[p f] ph]|]; reflexivity.
Qed.

(** C3: after the executor, with [last_message] the last message of the
    transcript, should_continue answers "tools" if that message carries a
    tool call, else "report" if the plan is complete, else "advance" if the
    phase is "executing", else "executor"; the graph maps these answers to
    the tools, reporter, advance and executor nodes; and the advance node
    adds one to the cursor of the plan and is followed by the executor. *)
Theorem C3_dispatch_priority
  (state : AgentState) (earlier : list Message) (last_message : Message) :
  messages state = (earlier ++ [last_message])%list ->
  should_continue state
  = Ok (if has_tool_calls last_message then R_tools
        else if plan_is_complete (plan state) then R_report
        else if String.eqb (phase state) "executing" then R_advance
        else R_executor)
  /\ next_node N_executor state
     = Ok (if has_tool_calls last_message then N_tools
           else if plan_is_complete (plan state) then N_reporter
           else if String.eqb (phase state) "executing" then N_advance
           else N_executor)
  /\ (forall (ch : Channels) (env : Env),
        exists (u : Update),
          step N_advance ch env = (Ok (u, write ch u, N_executor), env)
          /\ plan (values (write ch u))
             = option_map advance (plan (values ch))).
Proof.
  intros Hmsgs.
  assert (Hroute : should_continue state
                   = Ok (if has_tool_calls last_message then R_tools
                         else if plan_is_complete (plan state) then R_report
                         else if String.eqb (phase state) "executing" then R_advance
                         else R_executor)).
  { unfold should_continue. rewrite Hmsgs, py_index_last. cbn [bind].
    destruct (has_tool_calls last_message); [reflexivity|].
    destruct (plan_is_complete (plan state)); [reflexivity|].
    destruct (String.eqb (phase state) "executing"); reflexivity. }
  split; [exact Hroute|]. split.
  - cbn [next_node]. rewrite Hroute. cbn [bind].
    destruct (has_tool_calls last_message); [reflexivity|].
    destruct (plan_is_complete (plan state)); [reflexivity|].
    destruct (String.eqb (phase state) "executing"); reflexivity.
  - intros ch env. exists (whole (advance_plan (values ch))). split.
    + reflexivity.
    + rewrite plan_after_write. unfold plan_written. cbn.
      destruct (plan (values ch)); reflexivity.
Qed.

End LoopProperties.

Lemma C3_dispatch_priority_witness :
  let state :=
    {| Agent.messages :=
         [HumanMessage "list SSH keys" (Some (Uuid 0));
          AIMessage "All keys are listed." [] (Some (Uuid 1))];
       Agent.plan := Some (State.new_plan "list SSH keys" ["find_ssh_keys"]);
       Agent.findings := [];
       Agent.phase := "executing" |} in
  Agent.should_continue state = Ok Agent.R_advance
  /\ Agent.next_node Agent.N_executor state = Ok Agent.N_advance.
Proof.
  intros state.
  destruct (@C3_dispatch_priority Scenario.Mock Scenario.mock_subprocess
              Scenario.mock_chat_model state
              [HumanMessage "list SSH keys" (Some (Uuid 0))]
              (AIMessage "All keys are listed." [] (Some (Uuid 1))) eq_refl)
    as (Hroute & Hnext & _).
  split; [exact Hroute | exact Hnext].
Defined.

(** ** The plan across a run *)

Section PlanFrame.
Context {Env : Type} `{Subprocess Env} `{ChatModel Env}.
Import State Agent.

Lemma run_node_plan (n : Node) (state : AgentState) (env env' : Env) (u : Update) :
  n <> N_planner ->
  run_node n state env = (Ok u, env') ->
  plan_written u (plan state) = plan_effect n (plan state).
Proof.
  intros Hn Hrun. destruct n; [congruence| | | | |].
  - (* executor *)
    cbn in Hrun. unfold mbind, executor_node, mbind, ret in Hrun.
    destruct (plan state) as [p|] eqn:Hp.
    + destruct (next_step p) as [cur|e]; [|discriminate].
      destruct (llm_bind_tools_invoke _ _ env) as [[response|e] env1];
        [|discriminate].
      injection Hrun as <- _. reflexivity.
    + destruct (llm_bind_tools_invoke _ _ env) as [[response|e] env1];
        [|discriminate].
      injection Hrun as <- _. reflexivity.
  - (* tools *)
    cbn in Hrun. unfold mbind, ret in Hrun.
    destruct (tool_node state env) as [[msgs|e] env1]; [|discriminate].
    injection Hrun as <- _. reflexivity.
  - (* advance *)
    cbn in Hrun. unfold ret in Hrun. injection Hrun as <- _.
    unfold plan_written. cbn. destruct (plan state); reflexivity.
  - (* reporter *)
    cbn in Hrun. unfold mbind, reporter_node, mbind, ret in Hrun.
    destruct (llm_invoke _ env) as [[response|e] env1]; [|discriminate].
    injection Hrun as <- _. reflexivity.
  - (* END *)
    cbn in Hrun. unfold ret in Hrun. injection Hrun as <- _. reflexivity.
Qed.

Lemma next_node_not_planner (n n' : Node) (state : AgentState) :
  next_node n state = Ok n' -> n' <> N_planner.
Proof.
  destruct n; cbn; try (intros [= <-]; discriminate).
  destruct (should_continue state) as [r|e]; cbn; [|discriminate].
  intros [= <-]. destruct r; discriminate.
Qed.

Lemma step_inv (n n' : Node) (ch ch' : Channels) (env env' : Env) (u : Update) :
  step n ch env = (Ok (u, ch', n'), env') ->
  run_node n (values ch) env = (Ok u, env')
  /\ ch' = write ch u
  /\ next_node n (values ch') = Ok n'.
Proof.
  unfold step, mbind. intros Hstep.
  destruct (run_node n (values ch) env) as [[u0|e] env1]; [|discriminate].
  destruct (next_node n (values (write ch u0))) as [n0|e] eqn:Hnext;
    [|discriminate].
  injection Hstep as <- <- <- <-. auto.
Qed.

Lemma step_plan (n n' : Node) (ch ch' : Channels) (env env' : Env) (u : Update) :
  n <> N_planner ->
  step n ch env = (Ok (u, ch', n'), env') ->
  n' <> N_planner
  /\ plan (values ch') = plan_effect n (plan (values ch)).
Proof.
  intros Hn Hstep. apply step_inv in Hstep as (Hrun & -> & Hnext).
  split; [exact (next_node_not_planner _ _ _ Hnext)|].
  rewrite plan_after_write. exact (run_node_plan _ _ _ _ _ Hn Hrun).
Qed.

Lemma run_from_inv (k : nat) (n : Node) (ch final : Channels) (env env' : Env)
  (events : list Event) :
  n <> END ->
  run_from (S k) n ch env = (Ok (events, final), env') ->
  exists u ch1 n1 env1 rest,
    step n ch env = (Ok (u, ch1, n1), env1)
    /\ run_from k n1 ch1 env1 = (Ok (rest, final), env')
    /\ events = (n, u) :: rest.
Proof.
  intros Hn Hrun.
  assert (Hunfold : run_from (S k) n ch env
                    = mbind (step n ch)
                        (fun r => let '(u, ch', n') := r in
                                  mbind (run_from k n' ch')
                                    (fun r' => let '(events, final) := r' in
                                               ret ((n, u) :: events, final)))
                        env)
    by (destruct n; [reflexivity ..| congruence]).
  rewrite Hunfold in Hrun. clear Hunfold. unfold mbind at 1 in Hrun.
  destruct (step n ch env) as [[[[u ch1] n1]|e] env1] eqn:Hstep; [|discriminate].
  unfold mbind, ret in Hrun.
  destruct (run_from k n1 ch1 env1) as [[[rest fin]|e] env2] eqn:Hrest;
    [|discriminate].
  injection Hrun as <- <- <-.
  now exists u, ch1, n1, env1, rest.
Qed.

Lemma run_from_end (limit : nat) (ch final : Channels) (env env' : Env)
  (events : list Event) :
  run_from limit END ch env = (Ok (events, final), env') ->
  events = [] /\ final = ch.
Proof. destruct limit; cbn; unfold ret; intros [= <- <- _]; auto. Qed.

Lemma option_map_advance_n (k : nat) (p : option AssessmentPlan) :
  option_map (advance_n k) (option_map advance p)
  = option_map (advance_n (S k)) p.
Proof. destruct p; reflexivity. Qed.

(** From any node but the planner, a run never comes back to the planner;
    after each event the plan is the one before it, advanced if the event
    is the advance node; so the final plan is the first one advanced once
    per advance event. *)
Lemma run_from_plan (limit : nat) (n : Node) (ch final : Channels)
  (env env' : Env) (events : list Event) :
  n <> N_planner ->
  run_from limit n ch env = (Ok (events, final), env') ->
  ~ In N_planner (map fst events)
  /\ plans_after events (plan (values ch))
     = plan_effects (map fst events) (plan (values ch))
  /\ plan (values final)
     = option_map (advance_n (advances events)) (plan (values ch)).
Proof.
  revert n ch env events. induction limit as [|k IH]; intros n ch env events Hn Hrun.
  - destruct n; try discriminate.
    apply run_from_end in Hrun as [-> ->]. cbn. split; [tauto|]. split; [reflexivity|].
    destruct (plan (values ch)); reflexivity.
  - destruct n;
      try (apply run_from_end in Hrun as [-> ->]; cbn; split; [tauto|];
           split; [reflexivity|];
           destruct (plan (values ch)); reflexivity);
      try congruence;
      (apply run_from_inv in Hrun as (u & ch1 & n1 & env1 & rest & Hstep & Hrest & ->);
       [|discriminate];
       pose proof Hstep as Hstep';
       apply step_inv in Hstep' as (_ & Hwrite & _);
       apply step_plan in Hstep as [Hn1 Hplan]; [|discriminate];
       assert (Hwritten : plan_written u (plan (values ch))
                          = plan (values ch1))
         by (rewrite Hwrite; symmetry; apply plan_after_write);
       destruct (IH _ _ _ _ Hn1 Hrest) as (Hnever & Hseen & Hfinal);
       split;
       [ cbn; intros [Heq|Hin]; [discriminate | exact (Hnever Hin)]
       | split;
         [ cbn [plans_after map fst plan_effects];
           rewrite Hwritten, Hseen, Hplan; reflexivity
         | rewrite Hfinal, Hplan; cbn [plan_effect advances];
           try reflexivity; apply option_map_advance_n ] ]).
Qed.

End PlanFrame.

Section PlanCreatedOnce.
Context {Env : Type} `{Subprocess Env} `{ChatModel Env}.
Import State Agent.

Lemma planner_step (ch ch1 : Channels) (env env1 : Env) (u : Update) (n1 : Node) :
  step N_planner ch env = (Ok (u, ch1, n1), env1) ->
  n1 = N_executor
  /\ exists response : Message,
       forall old, plan_written u old = Some (parse_plan (content_of response)).
Proof.
  intros Hstep. apply step_inv in Hstep as (Hrun & _ & Hnext).
  split; [cbn in Hnext; congruence|].
  cbn in Hrun. unfold mbind, planner_node, mbind, ret in Hrun.
  destruct (llm_invoke _ env) as [[response|e] env2]; [|discriminate].
  injection Hrun as <- _. exists response. reflexivity.
Qed.

(** C8: in every run of the graph the planner runs once, first, and
    creates the plan from the model's response; after every later event the
    plan is the one before that event, untouched unless the event is the
    advance node, which applies advance() to it; advance() adds one to the
    cursor and keeps objective, steps and findings; so the final plan has
    the objective, steps and findings it was created with and a cursor equal
    to the number of advance events. *)
Theorem C8_plan_is_mutated_only_by_advance
  (state0 : AgentState) (env env' : Env) (events : list Event) (final : Channels) :
  stream state0 env = (Ok (events, final), env') ->
  exists (response : Message) (u : Update) (rest : list Event),
    let created := parse_plan (content_of response) in
    events = (N_planner, u) :: rest
    /\ plan_written u (plan state0) = Some created
    /\ ~ In N_planner (map fst rest)
    /\ plans_after rest (Some created) = plan_effects (map fst rest) (Some created)
    /\ (forall q : AssessmentPlan,
          objective (advance q) = objective q
          /\ steps (advance q) = steps q
          /\ State.findings (advance q) = State.findings q
          /\ current_step (advance q) = current_step q + 1)
    /\ exists p : AssessmentPlan,
         plan (values final) = Some p
         /\ objective p = objective created
         /\ steps p = steps created
         /\ State.findings p = State.findings created
         /\ current_step p = Z.of_nat (advances rest).
Proof.
  unfold stream, recursion_limit. intros Hrun.
  apply run_from_inv in Hrun
    as (u & ch1 & n1 & env1 & rest & Hstep & Hrest & ->); [|discriminate].
  pose proof Hstep as Hstep'.
  apply step_inv in Hstep' as (_ & Hwrite & _).
  apply planner_step in Hstep as [-> [response Hcreated]].
  exists response, u, rest. cbn zeta.
  assert (Hplan1 : plan (values ch1) = Some (parse_plan (content_of response)))
    by (rewrite Hwrite, plan_after_write; apply Hcreated).
  apply run_from_plan in Hrest as (Hnever & Hseen & Hfinal); [|discriminate].
  rewrite Hplan1 in Hseen, Hfinal.
  split; [reflexivity|]. split; [apply Hcreated|].
  split; [exact Hnever|]. split; [exact Hseen|].
  split; [intros q; cbn; auto|].
  exists (advance_n (advances rest) (parse_plan (content_of response))).
  split; [exact Hfinal|].
  destruct (advance_n_frame (advances rest) (parse_plan (content_of response)))
    as (Ho & Hs & Hf & Hc).
  repeat split; assumption.
Qed.

End PlanCreatedOnce.

Lemma run_is_stream (objective : string) (o : result CompletedProcess) :
  Scenario.run objective o
  = @Agent.stream Scenario.Mock Scenario.mock_subprocess Scenario.mock_chat_model
      (Agent.initial_state objective) (Scenario.fresh o).
Proof. unfold Scenario.run. reflexivity. Qed.

Lemma C8_plan_is_mutated_only_by_advance_witness :
  exists (events : list Agent.Event) (final : Agent.Channels) (env' : Scenario.Mock),
    Scenario.run "list SSH keys" Scenario.listing = (Ok (events, final), env')
    /\ exists p : State.AssessmentPlan,
         Agent.plan (Agent.values final) = Some p
         /\ State.current_step p = Z.of_nat (Agent.advances (List.tl events)).
Proof.
  assert (Hrun : exists (events : list Agent.Event) (final : Agent.Channels)
                        (env' : Scenario.Mock),
             Scenario.run "list SSH keys" Scenario.listing
             = (Ok (events, final), env')).
  { eexists. eexists. eexists. vm_compute. reflexivity. }
  destruct Hrun as (events & final & env' & Hrun).
  exists events, final, env'. split; [exact Hrun|].
  rewrite run_is_stream in Hrun.
  destruct (@C8_plan_is_mutated_only_by_advance
              Scenario.Mock Scenario.mock_subprocess Scenario.mock_chat_model
              (Agent.initial_state "list SSH keys")
              (Scenario.fresh Scenario.listing) env' events final Hrun)
    as (response & u & rest & Hev & _ & _ & _ & _ & p & Hp & _ & _ & _ & Hc).
  exists p. split; [exact Hp|]. rewrite Hev. exact Hc.
Defined.

(** ** The end-to-end scenario *)

Section ScenarioProperties.
Import State Agent Scenario.

(** C2, as stated, fails: in the scenario the run ends with a transcript of
    11 entries, not 10.  The planner adds one entry (the response; its
    prompt is not kept), and after the advance node the executor runs a
    third time before the reporter does. *)
Lemma C2_transcript_has_eleven_entries :
  exists (events : list Event) (final : Channels) (env' : Mock),
    run "list SSH keys" listing = (Ok (events, final), env')
    /\ List.length (messages (values final)) = 11%nat
    /\ List.length (messages (values final)) <> 10%nat
    /\ nodes_of events
       = [N_planner; N_executor; N_tools; N_executor; N_advance; N_executor;
          N_reporter].
Proof.
  eexists. eexists. eexists. split; [vm_compute; reflexivity|].
  split; [reflexivity|]. split; [discriminate | reflexivity].
Qed.

(** C2 (amended): in the scenario, whatever the objective and whatever the
    host answers to the command, the loop runs planner, executor, tools,
    executor, advance, executor, reporter.  The tool's command is run
    exactly once and its result appended; the plan is advanced to complete
    after the second executor turn; the executor is then asked once more,
    with no current step, and answers in plain text; the reporter runs
    exactly once, last.  The final transcript has
    1 + 1 + 2 + 1 + 2 + 2 + 2 = 11 entries in the order of appending. *)
Theorem C2_end_to_end_scenario (objective : string) (o : result CompletedProcess) :
  exists (events : list Event) (final : Channels) (env' : Mock),
    run objective o = (Ok (events, final), env')
    /\ nodes_of events
       = [N_planner; N_executor; N_tools; N_executor; N_advance; N_executor;
          N_reporter]
    /\ commands_run env' = [ssh_command]
    /\ plain_calls env' = 2%nat
    /\ tool_calls_made env' = 3%nat
    /\ plan (values final) = Some (advance (new_plan "list SSH keys" ["find_ssh_keys"]))
    /\ plan_is_complete (plan (values final)) = true
    /\ phase (values final) = "complete"
    /\ returned_sizes events
       = [(N_planner, 2); (N_executor, 4); (N_tools, 1); (N_executor, 7);
          (N_advance, 7); (N_executor, 9); (N_reporter, 11)]%nat
    /\ messages (values final) = expected_transcript objective o
    /\ List.length (messages (values final)) = 11%nat.
Proof.
  destruct o as [done | e].
  - eexists. eexists. eexists. split; [vm_compute; reflexivity|].
    repeat split; reflexivity.
  - destruct e;
      (eexists; eexists; eexists; split; [vm_compute; reflexivity|];
       repeat split; reflexivity).
Qed.

End ScenarioProperties.

(** ** The cursor across a run *)

Lemma Node_is_planner (n : Agent.Node) : {n = Agent.N_planner} + {n <> Agent.N_planner}.
Proof. destruct n; (left; reflexivity) || (right; discriminate). Qed.

Lemma Node_is_end (n : Agent.Node) : {n = Agent.END} + {n <> Agent.END}.
Proof. destruct n; (left; reflexivity) || (right; discriminate). Qed.

Section CursorInTheLoop.
Context {Env : Type} `{Subprocess Env} `{ChatModel Env}.
Import State Agent.

Lemma should_continue_advance (state : AgentState) :
  should_continue state = Ok R_advance ->
  plan_is_complete (plan state) = false.
Proof.
  unfold should_continue.
  destruct (py_index (messages state) (-1)) as [m|e]; cbn; [|discriminate].
  destruct (has_tool_calls m); [discriminate|].
  destruct (plan_is_complete (plan state)); [discriminate | reflexivity].
Qed.

Lemma next_node_advance (n : Node) (state : AgentState) :
  next_node n state = Ok N_advance -> plan_is_complete (plan state) = false.
Proof.
  destruct n; cbn; try discriminate.
  destruct (should_continue state) as [r|e] eqn:Hroute; cbn; [|discriminate].
  destruct r; try discriminate. intros _. now apply should_continue_advance.
Qed.

Lemma parse_plan_in_range (content : string) : cursor_in_range (parse_plan content).
Proof. unfold cursor_in_range, parse_plan, len_steps. cbn. lia. Qed.

Lemma step_guarded (n n' : Node) (ch ch' : Channels) (env env' : Env) (u : Update) :
  guarded n ch ->
  step n ch env = (Ok (u, ch', n'), env') ->
  guarded n' ch'.
Proof.
  intros [Hrange Hgate] Hstep.
  pose proof Hstep as Hinv. apply step_inv in Hinv as (_ & Hwrite & Hnext).
  split; [|intros ->; exact (next_node_advance _ _ Hnext)].
  destruct (Node_is_planner n) as [-> | Hn].
  - apply planner_step in Hstep as [_ [response Hcreated]].
    rewrite Hwrite, plan_after_write, Hcreated. apply parse_plan_in_range.
  - apply step_plan in Hstep as [_ Hplan]; [|exact Hn].
    rewrite Hplan. destruct n; try exact Hrange.
    specialize (Hgate eq_refl). cbn.
    destruct (plan (values ch)) as [p|]; cbn in *; [|exact I].
    now apply advance_in_range.
Qed.

(** The loop advances only plans that are not complete: in a run from a
    node and a state that meet [guarded] (the entry point with no plan
    does), the plan satisfies 0 <= cursor <= len(steps) after every event
    and at the end. *)
Theorem loop_keeps_cursor_in_range
  (limit : nat) (n : Node) (ch final : Channels) (env env' : Env)
  (events : list Event) :
  guarded n ch ->
  run_from limit n ch env = (Ok (events, final), env') ->
  Forall plan_in_range (plans_after events (plan (values ch)))
  /\ plan_in_range (plan (values final)).
Proof.
  revert n ch env events. induction limit as [|k IH]; intros n ch env events Hg Hrun.
  - destruct n; try discriminate.
    apply run_from_end in Hrun as [-> ->]. split; [constructor | apply Hg].
  - destruct (Node_is_end n) as [-> | Hn].
    + apply run_from_end in Hrun as [-> ->]. split; [constructor | apply Hg].
    + apply run_from_inv in Hrun
        as (u & ch1 & n1 & env1 & rest & Hstep & Hrest & ->); [|exact Hn].
      pose proof (step_guarded _ _ _ _ _ _ _ Hg Hstep) as Hg1.
      apply step_inv in Hstep as (_ & Hwrite & _).
      assert (Hwritten : plan_written u (plan (values ch)) = plan (values ch1))
        by (rewrite Hwrite; symmetry; apply plan_after_write).
      destruct (IH _ _ _ _ Hg1 Hrest) as [Hseen Hfinal].
      split; [|exact Hfinal].
      cbn [plans_after]. rewrite Hwritten.
      constructor; [apply Hg1 | exact Hseen].
Qed.

End CursorInTheLoop.

(** * Further properties of the modelled code *)

(** ** The plan: [next_step] *)

Section NextStep.
Import State.

Lemma py_index_in_range {A : Type} (l : list A) (i : Z) :
  0 <= i < Z.of_nat (List.length l) ->
  exists x, nth_error l (Z.to_nat i) = Some x /\ py_index l i = Ok x.
Proof.
  intros Hi. unfold py_index.
  destruct (Z.ltb_spec i 0) as [Hneg|_]; [lia|].
  destruct (Z.ltb_spec i 0) as [Hneg|_]; [lia|].
  destruct (Z.leb_spec (Z.of_nat (List.length l)) i) as [Hle|_]; [lia|].
  cbn [orb].
  destruct (nth_error l (Z.to_nat i)) as [x|] eqn:Hnth.
  - now exists x.
  - apply nth_error_None in Hnth. lia.
Qed.

Lemma py_index_from_end {A : Type} (l : list A) (i : Z) :
  - Z.of_nat (List.length l) <= i < 0 ->
  exists x, nth_error l (Z.to_nat (Z.of_nat (List.length l) + i)) = Some x
            /\ py_index l i = Ok x.
Proof.
  intros Hi. unfold py_index.
  destruct (Z.ltb_spec i 0) as [_|Hpos]; [|lia].
  destruct (Z.ltb_spec (i + Z.of_nat (List.length l)) 0) as [Hneg|_]; [lia|].
  destruct (Z.leb_spec (Z.of_nat (List.length l)) (i + Z.of_nat (List.length l)))
    as [Hle|_]; [lia|].
  cbn [orb]. rewrite (Z.add_comm i).
  destruct (nth_error l (Z.to_nat (Z.of_nat (List.length l) + i))) as [x|] eqn:Hnth.
  - now exists x.
  - apply nth_error_None in Hnth. lia.
Qed.

Lemma py_index_below {A : Type} (l : list A) (i : Z) :
  i < - Z.of_nat (List.length l) -> py_index l i = Raise IndexError.
Proof.
  intros Hi. unfold py_index.
  destruct (Z.ltb_spec i 0) as [_|Hpos]; [|lia].
  destruct (Z.ltb_spec (i + Z.of_nat (List.length l)) 0) as [_|Hpos]; [|lia].
  reflexivity.
Qed.

(** next_step() answers None exactly when is_complete() answers true; and
    with a cursor that is not negative it never raises: it returns the step
    at the cursor, or None when the cursor is past the last step. *)
Theorem next_step_none_iff_complete (p : AssessmentPlan) :
  (next_step p = Ok None <-> is_complete p = true)
  /\ (0 <= current_step p ->
      next_step p = Ok (nth_error (steps p) (Z.to_nat (current_step p)))).
Proof.
  unfold next_step, is_complete, len_steps. split.
  - destruct (Z.ltb_spec (current_step p) (Z.of_nat (List.length (steps p))))
      as [Hlt|Hge].
    + split.
      * destruct (py_index (steps p) (current_step p)); cbn; discriminate.
      * intros Hc. apply Z.leb_le in Hc. lia.
    + split; [|reflexivity]. intros _. now apply Z.leb_le.
  - intros Hpos.
    destruct (Z.ltb_spec (current_step p) (Z.of_nat (List.length (steps p))))
      as [Hlt|Hge].
    + destruct (py_index_in_range (steps p) (current_step p)) as (x & Hnth & Hidx);
        [lia|].
      rewrite Hidx, Hnth. reflexivity.
    + symmetry. f_equal. apply nth_error_None. lia.
Qed.

Lemma next_step_none_iff_complete_witness :
  next_step (advance (new_plan "list SSH keys" ["find_ssh_keys"; "list_keychains"]))
  = Ok (Some "list_keychains").
Proof.
  apply (proj2 (next_step_none_iff_complete
                  (advance (new_plan "list SSH keys"
                                     ["find_ssh_keys"; "list_keychains"])))).
  cbn. lia.
Defined.

(** A plan as the planner creates it, advanced [n] times, offers the [n]-th
    of its steps: the steps come in order, none skipped, none repeated, and
    None once they are used up. *)
Theorem next_step_walks_the_steps (o : string) (l : list string) (n : nat) :
  next_step (advance_n n (new_plan o l)) = Ok (nth_error l n).
Proof.
  destruct (advance_n_frame n (new_plan o l)) as (_ & Hs & _ & Hc).
  destruct (next_step_none_iff_complete (advance_n n (new_plan o l))) as [_ Hnext].
  rewrite Hnext by (rewrite Hc; cbn; lia).
  rewrite Hs, Hc. cbn [steps current_step new_plan].
  rewrite Z.add_0_l, Nat2Z.id. reflexivity.
Qed.

(** A negative cursor is read as a Python index from the end: next_step()
    returns the step that far from the end, and raises IndexError when the
    cursor lies further back than the first step. *)
Theorem next_step_negative_cursor (p : AssessmentPlan) :
  current_step p < 0 ->
  next_step p
  = if - len_steps p <=? current_step p
    then Ok (nth_error (steps p) (Z.to_nat (len_steps p + current_step p)))
    else Raise IndexError.
Proof.
  intros Hneg. unfold next_step, len_steps.
  destruct (Z.ltb_spec (current_step p) (Z.of_nat (List.length (steps p))))
    as [_|Hge]; [|lia].
  destruct (Z.leb_spec (- Z.of_nat (List.length (steps p))) (current_step p))
    as [Hin|Hout].
  - destruct (py_index_from_end (steps p) (current_step p)) as (x & Hnth & Hidx);
      [lia|].
    rewrite Hidx, Hnth. reflexivity.
  - rewrite py_index_below by lia. reflexivity.
Qed.

Lemma next_step_negative_cursor_witness :
  next_step {| objective := "list SSH keys";
               steps := ["find_ssh_keys"; "list_keychains"];
               current_step := -1;
               findings := [] |}
  = Ok (Some "list_keychains").
Proof.
  apply (next_step_negative_cursor
           {| objective := "list SSH keys";
              steps := ["find_ssh_keys"; "list_keychains"];
              current_step := -1;
              findings := [] |}).
  cbn. lia.
Defined.

End NextStep.

(** ** Stripping *)

Section StripFacts.

Lemma rstrip_idempotent (s : string) : PyStr.rstrip (PyStr.rstrip s) = PyStr.rstrip s.
Proof.
  induction s as [|c s IH]; [reflexivity|].
  cbn [PyStr.rstrip].
  destruct (PyStr.isspace c && negb (PyStr.truthy (PyStr.rstrip s))) eqn:Hdrop.
  - reflexivity.
  - cbn [PyStr.rstrip]. rewrite IH, Hdrop. reflexivity.
Qed.

Lemma lstrip_starts_visible (s : string) : PyStr.starts_visible (PyStr.lstrip s) = true.
Proof.
  induction s as [|c s IH]; [reflexivity|].
  cbn [PyStr.lstrip]. destruct (PyStr.isspace c) eqn:Hc; [exact IH|].
  cbn. now rewrite Hc.
Qed.

Lemma lstrip_of_visible (s : string) :
  PyStr.starts_visible s = true -> PyStr.lstrip s = s.
Proof.
  destruct s as [|c s]; [reflexivity|]. cbn.
  intros Hc. apply negb_true_iff in Hc. now rewrite Hc.
Qed.

Lemma rstrip_starts_visible (s : string) :
  PyStr.starts_visible s = true -> PyStr.starts_visible (PyStr.rstrip s) = true.
Proof.
  destruct s as [|c s]; [reflexivity|]. cbn.
  intros Hc. apply negb_true_iff in Hc. rewrite Hc. cbn. now rewrite Hc.
Qed.

Lemma strip_idempotent (s : string) : PyStr.strip (PyStr.strip s) = PyStr.strip s.
Proof.
  unfold PyStr.strip.
  rewrite (lstrip_of_visible (PyStr.rstrip (PyStr.lstrip s)))
    by apply rstrip_starts_visible, lstrip_starts_visible.
  apply rstrip_idempotent.
Qed.

End StripFacts.

(** ** The formatter and the helpers of [tools/base.py] *)

Section FormatterStreams.
Import Base.

(** Whatever the options, the formatted text begins with the captured
    stdout; and with the default options it contains the captured stderr. *)
Theorem format_keeps_both_streams (r : CommandResult) :
  (forall include_stderr include_returncode : bool,
     exists rest : string,
       format_command_output_with r include_stderr include_returncode
       = stdout r ++ rest)
  /\ PyStr.contains (format_command_output r) (stderr r).
Proof.
  split.
  - intros b1 b2. unfold format_command_output_with.
    destruct (PyStr.truthy (stdout r)) eqn:Hout.
    + set (tail1 := if b1 && PyStr.truthy (stderr r)
                    then PyStr.nl ++ "STDERR: " ++ stderr r else "").
      set (tail2 := if b2 && negb (success r)
                    then PyStr.nl ++ "Return code: "
                                  ++ PyStr.str_of_int (returncode r) else "").
      exists (tail1 ++ tail2). subst tail1 tail2.
      destruct (b1 && PyStr.truthy (stderr r)); destruct (b2 && negb (success r));
        cbn [append];
        rewrite ?app_empty_r, ?app_assoc_string;
        (rewrite or_else_truthy;
         [reflexivity | try exact Hout; apply truthy_app_r; reflexivity]).
    + destruct (stdout r) as [|c s]; [|discriminate]. cbn [append]. eauto.
  - unfold format_command_output, format_command_output_with.
    destruct (PyStr.truthy (stderr r)) eqn:Herr.
    + destruct (PyStr.truthy (stdout r)) eqn:Hout;
        destruct (success r); cbn [andb negb].
      * rewrite or_else_truthy
          by (apply truthy_app_r, truthy_app_r, truthy_app_r; exact Herr).
        exists (stdout r ++ PyStr.nl ++ "STDERR: "), "".
        now rewrite app_empty_r, !app_assoc_string.
      * rewrite or_else_truthy by (apply truthy_app_r; reflexivity).
        exists (stdout r ++ PyStr.nl ++ "STDERR: "),
               (PyStr.nl ++ "Return code: " ++ PyStr.str_of_int (returncode r)).
        now rewrite !app_assoc_string.
      * rewrite or_else_truthy by exact Herr.
        exists "", "". cbn [append]. now rewrite app_empty_r.
      * rewrite or_else_truthy by (apply truthy_app_r; reflexivity).
        now exists "", (PyStr.nl ++ "Return code: "
                                 ++ PyStr.str_of_int (returncode r)).
    + destruct (stderr r) as [|c s]; [|discriminate].
      eexists "", _. cbn [append]. reflexivity.
Qed.

End FormatterStreams.

Section RunnerHelpers.
Context {Env : Type} `{Subprocess Env}.
Import Base.

Lemma run_command_ok (command : string) (timeout : Z) (env : Env) :
  exists r : CommandResult,
    run_command command timeout env
    = (Ok r, snd (subprocess_run command true timeout env))
    /\ (forall e, fst (subprocess_run command true timeout env) = Raise e ->
        stdout r = "" /\ returncode r = -1)
    /\ (forall done, fst (subprocess_run command true timeout env) = Ok done ->
        stdout r = cp_stdout done /\ stderr r = cp_stderr done
        /\ returncode r = cp_returncode done).
Proof.
  unfold run_command, run_command_with.
  destruct (subprocess_run command true timeout env) as [[done | e] env'].
  - eexists. split; [reflexivity|]. cbn. split; [discriminate|].
    intros d [= <-]. auto.
  - destruct e; eexists; (split; [reflexivity|]); cbn;
      (split; [auto | discriminate]).
Qed.

Lemma distinct_NoDup (l : list string) : distinct l = true <-> NoDup l.
Proof.
  induction l as [|k l IH]; cbn.
  - split; [constructor | reflexivity].
  - rewrite andb_true_iff, negb_true_iff, IH. split.
    + intros [Hnot Hl]. constructor; [|exact Hl].
      intros Hin. assert (existsb (String.eqb k) l = true) as Hyes.
      { apply existsb_exists. exists k. split; [exact Hin | apply String.eqb_refl]. }
      congruence.
    + intros Hnd. inversion Hnd as [|? ? Hnot Hl]; subst. split; [|exact Hl].
      destruct (existsb (String.eqb k) l) eqn:Hex; [|reflexivity].
      apply existsb_exists in Hex as (x & Hin & Heq).
      apply String.eqb_eq in Heq. subst. contradiction.
Qed.

Lemma dict_set_new_key {V : Type} (k : string) (v : V) (d : list (string * V)) :
  ~ In k (map fst d) -> dict_set k v d = (d ++ [(k, v)])%list.
Proof.
  induction d as [|[k' v'] d IH]; cbn; intros Hnot; [reflexivity|].
  destruct (String.eqb_spec k' k) as [->|Hne].
  - exfalso. apply Hnot. now left.
  - rewrite IH; [reflexivity|]. intros Hin. apply Hnot. now right.
Qed.

Lemma run_commands_into_keys (commands : list (string * string)) (timeout : Z)
  (acc : list (string * CommandResult)) (env : Env) :
  NoDup (map fst acc ++ map fst commands) ->
  exists results env',
    run_commands_into commands timeout acc env = (Ok results, env')
    /\ map fst results = (map fst acc ++ map fst commands)%list.
Proof.
  revert acc env. induction commands as [|[name cmd] rest IH]; intros acc env Hnd.
  - exists acc, env. cbn. now rewrite app_nil_r.
  - cbn [run_commands_into]. unfold mbind.
    destruct (run_command_ok cmd timeout env) as (r & Hrun & _).
    rewrite Hrun.
    cbn [map fst] in Hnd.
    assert (Hfresh : ~ In name (map fst acc)).
    { apply NoDup_remove_2 in Hnd. intros Hin. apply Hnd, in_or_app. now left. }
    rewrite (dict_set_new_key name r acc Hfresh).
    destruct (IH (acc ++ [(name, r)])%list
                 (snd (subprocess_run cmd true timeout env)))
      as (results & env' & Hrest & Hkeys).
    { rewrite map_app. cbn [map fst]. rewrite <- app_assoc. exact Hnd. }
    exists results, env'. split; [exact Hrest|].
    rewrite Hkeys, map_app. cbn [map fst]. now rewrite <- app_assoc.
Qed.

(** run_commands never raises and answers with one result per command, under
    the names of the commands and in their order. *)
Theorem run_commands_keeps_the_names
  (commands : list (string * string)) (timeout : Z) (env : Env) :
  distinct (map fst commands) = true ->
  exists results env',
    run_commands commands timeout env = (Ok results, env')
    /\ map fst results = map fst commands.
Proof.
  intros Hd. apply distinct_NoDup in Hd.
  destruct (run_commands_into_keys commands timeout [] env Hd)
    as (results & env' & Hrun & Hkeys).
  now exists results, env'.
Qed.

(** check_path_exists never raises; it answers true exactly when the test
    command ran to its end and printed "exists" somewhere on stdout, so it
    answers false when the command timed out or could not be started. *)
Theorem check_path_exists_spec (path : string) (env : Env) :
  let probe := subprocess_run ("test -e " ++ path ++ " && echo 'exists'")
                              true 30 env in
  exists b : bool,
    check_path_exists path env = (Ok b, snd probe)
    /\ (b = true <->
        exists done, fst probe = Ok done
                     /\ PyStr.occurs_in "exists" (cp_stdout done) = true).
Proof.
  cbn zeta. unfold check_path_exists, mbind, ret, default_timeout.
  destruct (run_command_ok ("test -e " ++ path ++ " && echo 'exists'") 30 env)
    as (r & Hrun & Hfail & Hdone).
  rewrite Hrun. eexists. split; [reflexivity|].
  destruct (fst (subprocess_run ("test -e " ++ path ++ " && echo 'exists'")
                                true 30 env)) as [done|e] eqn:Hprobe.
  - destruct (Hdone done eq_refl) as (-> & _ & _). split.
    + intros Hb. now exists done.
    + intros (d & [= <-] & Hd). exact Hd.
  - destruct (Hfail e eq_refl) as [-> _]. split.
    + discriminate.
    + intros (d & Habs & _). discriminate.
Qed.

(** expand_path never raises; what it returns is stripped of surrounding
    whitespace, and is the empty string when the command timed out or could
    not be started. *)
Theorem expand_path_spec (path : string) (env : Env) :
  let probe := subprocess_run ("echo " ++ path) true 30 env in
  exists s : string,
    expand_path path env = (Ok s, snd probe)
    /\ PyStr.strip s = s
    /\ (forall done, fst probe = Ok done -> s = PyStr.strip (cp_stdout done))
    /\ (forall e, fst probe = Raise e -> s = "").
Proof.
  cbn zeta. unfold expand_path, mbind, ret, default_timeout.
  destruct (run_command_ok ("echo " ++ path) 30 env) as (r & Hrun & Hfail & Hdone).
  rewrite Hrun. eexists. split; [reflexivity|].
  split; [apply strip_idempotent|]. split.
  - intros done Hp. now destruct (Hdone done Hp) as (-> & _ & _).
  - intros e Hp. now destruct (Hfail e Hp) as [-> _].
Qed.

End RunnerHelpers.

Lemma run_commands_keeps_the_names_witness :
  exists results env',
    @Base.run_commands Scenario.Mock Scenario.mock_subprocess
       [("hostname", "hostname"); ("os_version", "sw_vers")] 30
       (Scenario.fresh Scenario.listing)
    = (Ok results, env')
    /\ map fst results = ["hostname"; "os_version"].
Proof.
  apply (@run_commands_keeps_the_names Scenario.Mock Scenario.mock_subprocess
           [("hostname", "hostname"); ("os_version", "sw_vers")] 30
           (Scenario.fresh Scenario.listing)).
  reflexivity.
Defined.

(** ** The tools *)

Section ComputationFacts.
Context {Env : Type}.

Lemma never_raises_ret {A : Type} (a : A) : never_raises (Env := Env) (ret a).
Proof. intros env. now exists a, env. Qed.

Lemma never_raises_bind {A B : Type} (m : M Env A) (k : A -> M Env B) :
  never_raises m -> (forall a, never_raises (k a)) -> never_raises (mbind m k).
Proof.
  intros Hm Hk env. unfold mbind.
  destruct (Hm env) as (a & env1 & ->). apply Hk.
Qed.

Lemma never_raises_mapM {A B : Type} (f : A -> M Env B) (l : list A) :
  (forall x, never_raises (f x)) -> never_raises (mapM f l).
Proof.
  intros Hf. induction l as [|x l IH]; cbn [mapM].
  - apply never_raises_ret.
  - apply never_raises_bind; [apply Hf|]. intros y.
    apply never_raises_bind; [exact IH|]. intros ys. apply never_raises_ret.
Qed.

End ComputationFacts.

Section ToolProperties.
Context {Env : Type} `{Subprocess Env}.
Import Tools.

Lemma never_raises_run_command (command : string) (timeout : Z) :
  never_raises (Base.run_command command timeout).
Proof.
  intros env. destruct (run_command_ok command timeout env) as (r & Hrun & _).
  eauto.
Qed.

Lemma never_raises_output_of (command : string) (args : Args) :
  never_raises (output_of command args).
Proof.
  apply never_raises_bind; [apply never_raises_run_command|].
  intros r. apply never_raises_ret.
Qed.

Lemma never_raises_stdouts_of (commands : list string) (args : Args) :
  never_raises (stdouts_of commands args).
Proof.
  apply never_raises_bind.
  - apply never_raises_mapM. intros cmd.
    apply never_raises_bind; [apply never_raises_run_command|].
    intros r. apply never_raises_ret.
  - intros rs. apply never_raises_ret.
Qed.

Lemma never_raises_collect_sections
  (command_of header_of : string * string -> string) (paths : list (string * string)) :
  never_raises (collect_sections command_of header_of paths).
Proof.
  induction paths as [|entry rest IH]; cbn [collect_sections].
  - apply never_raises_ret.
  - apply never_raises_bind; [apply never_raises_run_command|]. intros r.
    apply never_raises_bind; [exact IH|]. intros rs. apply never_raises_ret.
Qed.

(** A registered tool never raises, whatever its arguments and whatever
    the host does, with one exception: run_shell_command called without its
    required argument "command". *)
Theorem registered_tools_never_raise (t : BaseTool Env) (args : Args) :
  In t ALL_TOOLS ->
  name t <> "run_shell_command" \/ get_arg "command" args <> None ->
  never_raises (run t args).
Proof.
  intros Hin Hargs. cbn in Hin.
  repeat (destruct Hin as [<- | Hin]); try contradiction; cbn [run].
  - apply never_raises_bind.
    + apply never_raises_mapM. intros [n cmd].
      apply never_raises_bind; [apply never_raises_run_command|].
      intros r. apply never_raises_ret.
    + intros rs. apply never_raises_ret.
  - apply never_raises_output_of.
  - apply never_raises_output_of.
  - apply never_raises_output_of.
  - apply never_raises_stdouts_of.
  - apply never_raises_bind; [apply never_raises_collect_sections|].
    intros rs. apply never_raises_ret.
  - apply never_raises_output_of.
  - apply never_raises_output_of.
  - apply never_raises_output_of.
  - apply never_raises_output_of.
  - apply never_raises_stdouts_of.
  - apply never_raises_bind; [apply never_raises_collect_sections|].
    intros rs. apply never_raises_ret.
  - apply never_raises_bind; [apply never_raises_run_command|].
    intros r. apply never_raises_ret.
  - destruct Hargs as [Hname | Hcmd]; [now cbn in Hname|].
    unfold run_shell_command. cbn [run].
    destruct (get_arg "command" args) as [command|]; [|contradiction].
    apply never_raises_bind; [apply never_raises_run_command|].
    intros r. apply never_raises_ret.
Qed.

End ToolProperties.

Lemma registered_tools_never_raise_witness :
  never_raises
    (Tools.run (@Tools.find_ssh_keys Scenario.Mock Scenario.mock_subprocess) []).
Proof.
  apply (@registered_tools_never_raise Scenario.Mock Scenario.mock_subprocess).
  - cbn. right. right. right. left. reflexivity.
  - left. cbn. discriminate.
Defined.

Section ToolTexts.
Context {Env : Type} `{Subprocess Env}.
Import Tools.

Lemma truthy_app_l (a b : string) :
  PyStr.truthy a = true -> PyStr.truthy (a ++ b) = true.
Proof. destruct a; cbn; [discriminate | reflexivity]. Qed.

Lemma join_truthy (sep : string) (l : list string) :
  l <> [] -> Forall (fun s => PyStr.truthy s = true) l ->
  PyStr.truthy (PyStr.join sep l) = true.
Proof.
  destruct l as [|x l]; [congruence|]. intros _ Hall.
  inversion Hall as [|? ? Hx Hl]; subst. cbn [PyStr.join].
  destruct l; [exact Hx | now apply truthy_app_l].
Qed.

Lemma collect_sections_inv
  (command_of header_of : string * string -> string)
  (entry : string * string) (rest : list (string * string))
  (env env' : Env) (results : list string) :
  collect_sections command_of header_of (entry :: rest) env = (Ok results, env') ->
  exists r env1 rs,
    Base.run_command (command_of entry) Base.default_timeout env = (Ok r, env1)
    /\ collect_sections command_of header_of rest env1 = (Ok rs, env')
    /\ results = if Base.success r
                 then (header_of entry ++ PyStr.nl ++ Base.stdout r) :: rs
                 else rs.
Proof.
  cbn [collect_sections]. unfold mbind at 1.
  destruct (Base.run_command _ _ env) as [[r|e] env1]; [|discriminate].
  unfold mbind, ret.
  destruct (collect_sections command_of header_of rest env1)
    as [[rs|e] env2] eqn:Hrest; [|discriminate].
  intros [= <- <-]. now exists r, env1, rs.
Qed.

Lemma collect_sections_truthy
  (command_of header_of : string * string -> string)
  (paths : list (string * string)) (env env' : Env) (results : list string) :
  (forall entry, PyStr.truthy (header_of entry) = true) ->
  collect_sections command_of header_of paths env = (Ok results, env') ->
  Forall (fun s => PyStr.truthy s = true) results.
Proof.
  intros Hheader. revert env results.
  induction paths as [|entry rest IH]; intros env results Hrun.
  - cbn in Hrun. unfold ret in Hrun. injection Hrun as <- _. constructor.
  - apply collect_sections_inv in Hrun as (r & env1 & rs & _ & Hrest & ->).
    specialize (IH _ _ Hrest).
    destruct (Base.success r); [|exact IH].
    constructor; [|exact IH]. apply truthy_app_l, Hheader.
Qed.

Lemma joined_or_truthy (fallback : string) (results : list string) :
  PyStr.truthy fallback = true ->
  Forall (fun s => PyStr.truthy s = true) results ->
  PyStr.truthy (joined_or fallback results) = true.
Proof.
  intros Hf Hall. destruct results as [|x l]; [exact Hf|].
  unfold joined_or. apply join_truthy; [discriminate | exact Hall].
Qed.

(** The four tools that have a fallback text never return the empty
    string: find_cloud_configs, find_browser_data, find_sensitive_files and
    run_shell_command. *)
Theorem tools_with_fallback_return_text
  (t : BaseTool Env) (args : Args) (env env' : Env) (text : string) :
  t = find_cloud_configs \/ t = find_browser_data
  \/ t = find_sensitive_files \/ t = run_shell_command ->
  run t args env = (Ok text, env') ->
  text <> "".
Proof.
  intros Ht Hrun. apply truthy_iff_nonempty.
  destruct Ht as [-> | [-> | [-> | ->]]]; cbn [run] in Hrun.
  - unfold find_cloud_configs in Hrun. cbn [run] in Hrun.
    unfold mbind at 1 in Hrun.
    destruct (collect_sections _ _ CLOUD_CONFIG_PATHS env)
      as [[rs|e] env1] eqn:Hcollect; [|discriminate].
    unfold ret in Hrun. injection Hrun as <- _.
    apply joined_or_truthy; [reflexivity|].
    apply (collect_sections_truthy _ _ _ _ _ _) with (2 := Hcollect).
    intros [n path]. reflexivity.
  - unfold find_browser_data in Hrun. cbn [run] in Hrun.
    unfold mbind at 1 in Hrun.
    destruct (collect_sections _ _ BROWSER_PATHS env)
      as [[rs|e] env1] eqn:Hcollect; [|discriminate].
    unfold ret in Hrun. injection Hrun as <- _.
    apply joined_or_truthy; [reflexivity|].
    apply (collect_sections_truthy _ _ _ _ _ _) with (2 := Hcollect).
    intros [n path]. reflexivity.
  - unfold find_sensitive_files in Hrun. cbn [run] in Hrun.
    unfold mbind, ret in Hrun.
    destruct (Base.run_command _ 60 env) as [[r|e] env1]; [|discriminate].
    injection Hrun as <- _. unfold PyStr.or_else.
    destruct (PyStr.truthy (Base.stdout r)) eqn:Hout; [exact Hout | reflexivity].
  - unfold run_shell_command in Hrun. cbn [run] in Hrun.
    destruct (get_arg "command" args) as [command|]; [|discriminate].
    unfold mbind, ret in Hrun.
    destruct (Base.run_command command _ env) as [[r|e] env1]; [|discriminate].
    injection Hrun as <- _. apply truthy_iff_nonempty.
    unfold Base.format_command_output, Base.format_command_output_with.
    apply or_else_nonempty. discriminate.
Qed.

End ToolTexts.

Lemma tools_with_fallback_return_text_witness :
  exists (text : string) (env' : Scenario.Mock),
    Tools.run (@Tools.find_cloud_configs Scenario.Mock Scenario.mock_subprocess) []
              (Scenario.fresh (Raise (TimeoutExpired "ls" 30)))
    = (Ok text, env')
    /\ text <> "".
Proof.
  eexists. eexists. split.
  - vm_compute. reflexivity.
  - apply (@tools_with_fallback_return_text Scenario.Mock Scenario.mock_subprocess
             (@Tools.find_cloud_configs Scenario.Mock Scenario.mock_subprocess) []
             (Scenario.fresh (Raise (TimeoutExpired "ls" 30)))
             {| Scenario.plain_calls := 0; Scenario.tool_calls_made := 0;
                Scenario.commands_run :=
                  ["ls -la ~/.aws 2>/dev/null"; "ls -la ~/.config/gcloud 2>/dev/null";
                   "ls -la ~/.azure 2>/dev/null"; "ls -la ~/.kube 2>/dev/null"];
                Scenario.outcome := Raise (TimeoutExpired "ls" 30) |}).
    + left. reflexivity.
    + vm_compute. reflexivity.
Defined.

Section NothingToList.
Context {Env : Type} `{Subprocess Env}.
Import Tools.

Lemma run_command_fails (command : string) (timeout : Z) (env : Env) :
  every_command_fails ->
  exists r env', Base.run_command command timeout env = (Ok r, env')
                 /\ Base.success r = false.
Proof.
  intros Hfail. specialize (Hfail command true timeout env).
  destruct (run_command_ok command timeout env) as (r & Hrun & Hraise & Hdone).
  exists r, (snd (subprocess_run command true timeout env)).
  split; [exact Hrun|]. unfold Base.success.
  destruct (fst (subprocess_run command true timeout env)) as [done|e].
  - destruct (Hdone done eq_refl) as (_ & _ & ->). now apply Z.eqb_neq.
  - destruct (Hraise e eq_refl) as [_ ->]. reflexivity.
Qed.

Lemma collect_sections_nothing
  (command_of header_of : string * string -> string)
  (paths : list (string * string)) (env : Env) :
  every_command_fails ->
  exists env', collect_sections command_of header_of paths env = (Ok [], env').
Proof.
  intros Hfail. revert env. induction paths as [|entry rest IH]; intros env.
  - now exists env.
  - cbn [collect_sections]. unfold mbind at 1.
    destruct (run_command_fails (command_of entry) Base.default_timeout env Hfail)
      as (r & env1 & -> & Hr).
    unfold mbind, ret. destruct (IH env1) as (env2 & ->).
    rewrite Hr. now exists env2.
Qed.

(** When no directory can be listed (every command fails, times out or
    cannot be started), find_cloud_configs answers "No cloud config
    directories found" and find_browser_data answers "No browser data
    found". *)
Theorem nothing_found_texts (args : Args) (env : Env) :
  every_command_fails ->
  fst (run find_cloud_configs args env) = Ok "No cloud config directories found"
  /\ fst (run find_browser_data args env) = Ok "No browser data found".
Proof.
  intros Hfail. split.
  - unfold find_cloud_configs. cbn [run]. unfold mbind, ret.
    destruct (collect_sections_nothing
                (fun '(_, path) => "ls -la " ++ path ++ " 2>/dev/null")
                (fun '(name, path) => "=== " ++ name ++ " (" ++ path ++ ") ===")
                CLOUD_CONFIG_PATHS env Hfail) as (env' & ->).
    reflexivity.
  - unfold find_browser_data. cbn [run]. unfold mbind, ret.
    destruct (collect_sections_nothing
                (fun '(_, path) => "ls -la " ++ path ++ " 2>/dev/null | head -10")
                (fun '(name, _) => "=== " ++ name ++ " ===")
                BROWSER_PATHS env Hfail) as (env' & ->).
    reflexivity.
Qed.

End NothingToList.

Lemma nothing_found_texts_witness :
  fst (Tools.run (@Tools.find_cloud_configs unit DeadHost.dead_subprocess) [] tt)
  = Ok "No cloud config directories found"
  /\ fst (Tools.run (@Tools.find_browser_data unit DeadHost.dead_subprocess) [] tt)
     = Ok "No browser data found".
Proof.
  apply (@nothing_found_texts unit DeadHost.dead_subprocess [] tt).
  intros command shell timeout env. exact I.
Defined.

(** ** The reducer *)

Section ReducerProperties.
Import Reducer.

Lemma MessageId_eqb_eq (a b : MessageId) : MessageId_eqb a b = true <-> a = b.
Proof.
  destruct a as [s|n], b as [t|m]; cbn; try (split; [discriminate | congruence]).
  - rewrite String.eqb_eq. split; congruence.
  - rewrite Nat.eqb_eq. split; congruence.
Qed.

Lemma same_id_spec (a b : Message) :
  same_id a b = true <-> exists i, id_of a = Some i /\ id_of b = Some i.
Proof.
  unfold same_id. destruct (id_of a) as [i|], (id_of b) as [j|];
    try (split; [discriminate | intros (k & H1 & H2); discriminate]).
  rewrite MessageId_eqb_eq. split.
  - intros ->. now exists j.
  - intros (k & [= ->] & [= ->]). reflexivity.
Qed.

Lemma id_of_with_id (i : MessageId) (m : Message) : id_of (with_id i m) = Some i.
Proof. destruct m; reflexivity. Qed.

Lemma assign_ids_identified (l : list Message) (next : nat) :
  Forall (fun m => id_of m <> None) l -> assign_ids l next = (l, next).
Proof.
  induction 1 as [|m l Hm Hl IH]; cbn; [reflexivity|].
  destruct (id_of m); [|contradiction]. now rewrite IH.
Qed.

Lemma assign_ids_anonymous (news : list Message) (next : nat) :
  Forall (fun m => id_of m = None) news ->
  assign_ids news next = (stamp news next, (next + List.length news)%nat).
Proof.
  intros Hall. revert next. induction Hall as [|m l Hm Hl IH]; intros next; cbn.
  - now rewrite Nat.add_0_r.
  - rewrite Hm, IH. f_equal. lia.
Qed.

Lemma assign_ids_app (l news : list Message) (next : nat) :
  Forall (fun m => id_of m <> None) l ->
  assign_ids (l ++ news) next
  = (l ++ fst (assign_ids news next), snd (assign_ids news next))%list.
Proof.
  induction 1 as [|m l Hm Hl IH]; cbn.
  - now destruct (assign_ids news next).
  - destruct (id_of m); [|contradiction]. now rewrite IH.
Qed.

Lemma replace_by_id_unknown (m : Message) (l : list Message) :
  ~ In (id_of m) (map id_of l) \/ id_of m = None ->
  replace_by_id m l = None.
Proof.
  intros Hnew. induction l as [|x l IH]; cbn; [reflexivity|].
  rewrite IH.
  - destruct (same_id x m) eqn:Hsame; [|reflexivity].
    apply same_id_spec in Hsame as (i & Hx & Hm).
    destruct Hnew as [Hnot | Hnone]; [|congruence].
    exfalso. apply Hnot. cbn. left. congruence.
  - destruct Hnew as [Hnot | Hnone]; [left | now right].
    intros Hin. apply Hnot. cbn. now right.
Qed.

Lemma replace_by_id_member (m : Message) (l : list Message) :
  NoDup (map id_of l) -> Forall (fun x => id_of x <> None) l -> In m l ->
  replace_by_id m l = Some l.
Proof.
  induction l as [|x l IH]; cbn; intros Hnd Hids Hin; [contradiction|].
  inversion Hnd as [|? ? Hfresh Hnd']; subst.
  inversion Hids as [|? ? Hx Hids']; subst.
  destruct Hin as [-> | Hin].
  - rewrite replace_by_id_unknown by now left.
    assert (same_id m m = true) as ->; [|reflexivity].
    apply same_id_spec. destruct (id_of m) as [i|]; [now exists i | contradiction].
  - now rewrite IH.
Qed.

Lemma merge_known_messages (pre l : list Message) :
  NoDup (map id_of l) -> Forall (fun x => id_of x <> None) l ->
  incl pre l ->
  fold_left merge_one pre l = l.
Proof.
  intros Hnd Hids. induction pre as [|m pre IH]; intros Hincl; [reflexivity|].
  cbn [fold_left]. unfold merge_one at 2.
  rewrite replace_by_id_member; try assumption.
  - apply IH. intros x Hx. apply Hincl. now right.
  - apply Hincl. now left.
Qed.

Lemma known_below_weaken (a b : nat) (m : Message) :
  (a <= b)%nat -> known_below a m -> known_below b m.
Proof.
  intros Hab (i & Hid & Hlt). exists i. split; [exact Hid|].
  intros n Hn. specialize (Hlt n Hn). lia.
Qed.

Lemma known_below_identified (next : nat) (l : list Message) :
  Forall (known_below next) l -> Forall (fun x => id_of x <> None) l.
Proof.
  apply Forall_impl. intros m (i & Hid & _). congruence.
Qed.

Lemma fresh_id_not_in (next n : nat) (l : list Message) :
  Forall (known_below next) l -> (next <= n)%nat ->
  ~ In (Some (Uuid n)) (map id_of l).
Proof.
  intros Hall Hn Hin. apply in_map_iff in Hin as (m & Hid & Hm).
  rewrite Forall_forall in Hall. destruct (Hall m Hm) as (i & Hi & Hlt).
  rewrite Hi in Hid. injection Hid as ->. specialize (Hlt n eq_refl). lia.
Qed.

Lemma NoDup_snoc {A : Type} (l : list A) (x : A) :
  NoDup l -> ~ In x l -> NoDup (l ++ [x]).
Proof.
  induction l as [|y l IH]; cbn; intros Hnd Hnot.
  - constructor; [tauto | constructor].
  - inversion Hnd as [|? ? Hy Hl]; subst. constructor.
    + intros Hin. apply in_app_or in Hin as [Hin | [-> | []]]; tauto.
    + apply IH; tauto.
Qed.

Lemma merge_stamped (news l : list Message) (next : nat) :
  well_identified l next ->
  fold_left merge_one (stamp news next) l = (l ++ stamp news next)%list
  /\ well_identified (l ++ stamp news next) (next + List.length news).
Proof.
  revert l next. induction news as [|m news IH]; intros l next [Hknown Hnd].
  - cbn. rewrite app_nil_r, Nat.add_0_r. repeat split; assumption.
  - cbn [stamp fold_left List.length]. unfold merge_one at 2.
    assert (Hfresh : ~ In (Some (Uuid next)) (map id_of l))
      by (apply (fresh_id_not_in next); [exact Hknown | lia]).
    rewrite replace_by_id_unknown by (left; now rewrite id_of_with_id).
    destruct (IH (l ++ [with_id (Uuid next) m])%list (S next)) as [Hfold Hwell].
    + split.
      * apply Forall_app. split.
        -- eapply Forall_impl; [|exact Hknown].
           intros x. apply known_below_weaken. lia.
        -- constructor; [|constructor].
           exists (Uuid next). split; [apply id_of_with_id|].
           intros n [= <-]. lia.
      * rewrite map_app. cbn [map]. rewrite id_of_with_id.
        apply NoDup_snoc; assumption.
    + rewrite Hfold, <- app_assoc. cbn [app].
      split; [reflexivity|].
      rewrite <- app_assoc in Hwell. cbn [app] in Hwell.
      replace (next + S (List.length news))%nat
        with (S next + List.length news)%nat by lia.
      exact Hwell.
Qed.

End ReducerProperties.

Section ReducerTheorems.
Import Reducer.

(** With a transcript kept by the reducer, an update made of messages
    already in the transcript followed by new messages without identifiers
    (what every node returns) appends the new messages, in their order and
    identified, and changes nothing before them. *)
Theorem add_messages_appends (l pre news : list Message) (next : nat) :
  well_identified l next ->
  incl pre l ->
  Forall (fun m => id_of m = None) news ->
  add_messages l (pre ++ news) next
  = ((l ++ stamp news next)%list, (next + List.length news)%nat)
  /\ well_identified (l ++ stamp news next) (next + List.length news).
Proof.
  intros Hwell Hpre Hnews. pose proof Hwell as [Hknown Hnd].
  pose proof (known_below_identified _ _ Hknown) as Hids.
  assert (Hpre_ids : Forall (fun m => id_of m <> None) pre).
  { rewrite Forall_forall in Hids |- *. intros m Hm. apply Hids, Hpre, Hm. }
  unfold add_messages.
  rewrite (assign_ids_identified l next Hids).
  rewrite (assign_ids_app pre news next Hpre_ids).
  rewrite (assign_ids_anonymous news next Hnews). cbn [fst snd].
  rewrite fold_left_app.
  rewrite (merge_known_messages pre l Hnd Hids Hpre).
  destruct (merge_stamped news l next Hwell) as [-> Hwell'].
  split; [reflexivity | exact Hwell'].
Qed.

Lemma replace_by_id_at (m x : Message) (pre post : list Message) (i : MessageId) :
  NoDup (map id_of (pre ++ x :: post)) ->
  id_of x = Some i -> id_of m = Some i ->
  replace_by_id m (pre ++ x :: post) = Some (pre ++ m :: post)%list.
Proof.
  intros Hnd Hx Hm. induction pre as [|y pre IH]; cbn in *.
  - inversion Hnd as [|? ? Hfresh _]; subst.
    rewrite replace_by_id_unknown by (left; congruence).
    assert (same_id x m = true) as ->; [|reflexivity].
    apply same_id_spec. now exists i.
  - inversion Hnd as [|? ? _ Hnd']; subst. now rewrite IH.
Qed.

(** A message whose identifier is already in the transcript does not get
    appended: it takes the place of the message with that identifier, and
    the transcript keeps its length. *)
Theorem add_messages_rewrites (l : list Message) (m : Message) (i : MessageId)
  (next : nat) :
  well_identified l next ->
  id_of m = Some i ->
  In (Some i) (map id_of l) ->
  exists pre x post,
    l = (pre ++ x :: post)%list
    /\ id_of x = Some i
    /\ add_messages l [m] next = ((pre ++ m :: post)%list, next)
    /\ List.length (pre ++ m :: post) = List.length l.
Proof.
  intros [Hknown Hnd] Hm Hin.
  apply in_map_iff in Hin as (x & Hx & Hxl).
  apply in_split in Hxl as (pre & post & ->).
  exists pre, x, post. split; [reflexivity|]. split; [exact Hx|]. split.
  - unfold add_messages.
    rewrite (assign_ids_identified _ next (known_below_identified _ _ Hknown)).
    cbn [assign_ids]. rewrite Hm. cbn [fold_left]. unfold merge_one.
    now rewrite (replace_by_id_at m x pre post i Hnd Hx Hm).
  - rewrite !length_app. reflexivity.
Qed.

End ReducerTheorems.

Lemma add_messages_appends_witness :
  Reducer.add_messages
    [HumanMessage "list SSH keys" (Some (Uuid 0))]
    ([HumanMessage "list SSH keys" (Some (Uuid 0))]
       ++ [AIMessage "OBJECTIVE: keys" [] None])%list 1
  = ([HumanMessage "list SSH keys" (Some (Uuid 0));
      AIMessage "OBJECTIVE: keys" [] (Some (Uuid 1))], 2%nat).
Proof.
  apply (add_messages_appends
           [HumanMessage "list SSH keys" (Some (Uuid 0))]
           [HumanMessage "list SSH keys" (Some (Uuid 0))]
           [AIMessage "OBJECTIVE: keys" [] None] 1).
  - split.
    + constructor; [|constructor]. exists (Uuid 0). split; [reflexivity|].
      intros n Hn. injection Hn as <-. lia.
    + constructor; [intros [] | constructor].
  - intros x Hx. exact Hx.
  - constructor; [reflexivity | constructor].
Defined.

Lemma add_messages_rewrites_witness :
  exists pre x post,
    [HumanMessage "list SSH keys" (Some (Uuid 0));
     AIMessage "first answer" [] (Some (GivenId "run-1"))]
    = (pre ++ x :: post)%list
    /\ id_of x = Some (GivenId "run-1")
    /\ Reducer.add_messages
         [HumanMessage "list SSH keys" (Some (Uuid 0));
          AIMessage "first answer" [] (Some (GivenId "run-1"))]
         [AIMessage "second answer" [] (Some (GivenId "run-1"))] 1
       = ((pre ++ AIMessage "second answer" [] (Some (GivenId "run-1")) :: post)%list,
          1%nat)
    /\ List.length
         (pre ++ AIMessage "second answer" [] (Some (GivenId "run-1")) :: post)
       = List.length
           [HumanMessage "list SSH keys" (Some (Uuid 0));
            AIMessage "first answer" [] (Some (GivenId "run-1"))].
Proof.
  apply (add_messages_rewrites
           [HumanMessage "list SSH keys" (Some (Uuid 0));
            AIMessage "first answer" [] (Some (GivenId "run-1"))]
           (AIMessage "second answer" [] (Some (GivenId "run-1")))
           (GivenId "run-1") 1).
  - split.
    + constructor; [|constructor; [|constructor]].
      * exists (Uuid 0). split; [reflexivity|]. intros n Hn. injection Hn as <-. lia.
      * exists (GivenId "run-1"). split; [reflexivity|]. intros n Hn. discriminate Hn.
    + constructor; [|constructor; [intros [] | constructor]].
      cbn. intros [Heq | []]. discriminate Heq.
  - reflexivity.
  - cbn. right. left. reflexivity.
Defined.

(** ** The tools node *)

Section ToolNodeProperties.
Context {Env : Type} `{Subprocess Env} `{ChatModel Env}.
Import State Agent.

Lemma run_tool_call_ok (call : ToolCall) (env : Env) :
  exists content env',
    run_tool_call call env
    = (Ok (ToolMessage content (tc_name call) (tc_id call) None), env').
Proof.
  unfold run_tool_call.
  destruct (find_tool (tc_name call) Tools.ALL_TOOLS) as [t|].
  - destruct (Tools.run t (tc_args call) env) as [[content|e] env']; eauto.
  - unfold ret. eauto.
Qed.

Lemma mapM_run_tool_call (calls : list ToolCall) (env : Env) :
  exists msgs env',
    mapM run_tool_call calls env = (Ok msgs, env')
    /\ map answered msgs = map (fun c => Some (tc_name c, tc_id c)) calls
    /\ Forall (fun m => id_of m = None) msgs.
Proof.
  revert env. induction calls as [|call calls IH]; intros env.
  - exists [], env. repeat split. constructor.
  - cbn [mapM]. unfold mbind at 1.
    destruct (run_tool_call_ok call env) as (content & env1 & ->).
    unfold mbind, ret. destruct (IH env1) as (msgs & env2 & -> & Hans & Hids).
    eexists. eexists. split; [reflexivity|]. split.
    + cbn. now rewrite Hans.
    + constructor; [reflexivity | exact Hids].
Qed.

(** Given a transcript that ends with a model message, the tools node never
    raises: it answers every tool call of that message with one tool message,
    in the order of the calls, each carrying the name and the identifier of
    its call. *)
Theorem tool_node_answers_every_call
  (state : AgentState) (earlier : list Message)
  (content : string) (calls : list ToolCall) (id : option MessageId) (env : Env) :
  messages state = (earlier ++ [AIMessage content calls id])%list ->
  exists msgs env',
    tool_node state env = (Ok msgs, env')
    /\ map answered msgs = map (fun c => Some (tc_name c, tc_id c)) calls
    /\ List.length msgs = List.length calls.
Proof.
  intros Hmsgs. unfold tool_node. rewrite Hmsgs, py_index_last.
  destruct (mapM_run_tool_call calls env) as (msgs & env' & Hrun & Hans & _).
  exists msgs, env'. split; [exact Hrun|]. split; [exact Hans|].
  rewrite <- (length_map answered), Hans. apply length_map.
Qed.

Lemma find_tool_none (name : string) (tools : list (Tools.BaseTool Env)) :
  ~ In name (map Tools.name tools) -> find_tool name tools = None.
Proof.
  induction tools as [|t tools IH]; cbn; intros Hnot; [reflexivity|].
  destruct (String.eqb_spec (Tools.name t) name) as [Heq|Hne].
  - exfalso. apply Hnot. now left.
  - apply IH. intros Hin. apply Hnot. now right.
Qed.

(** A call that names no registered tool is answered with an error text
    that names the tool asked for and lists the registered ones; nothing is
    run on the host. *)
Theorem unknown_tool_is_reported (call : ToolCall) (env : Env) :
  ~ In (tc_name call) tool_names ->
  run_tool_call call env
  = (Ok (ToolMessage ("Error: " ++ tc_name call
                                ++ " is not a valid tool, try one of ["
                                ++ PyStr.join ", " tool_names ++ "].")
                     (tc_name call) (tc_id call) None),
     env).
Proof.
  intros Hnot. unfold run_tool_call.
  now rewrite (find_tool_none _ _ Hnot).
Qed.

(** The names of the registry are pairwise different, so a call that names
    a registered tool runs that very tool. *)
Theorem registry_lookup (t : Tools.BaseTool Env) :
  In t Tools.ALL_TOOLS ->
  find_tool (Tools.name t) Tools.ALL_TOOLS = Some t
  /\ NoDup tool_names.
Proof.
  intros Hin. split.
  - cbn in Hin. repeat (destruct Hin as [<- | Hin]); try contradiction; reflexivity.
  - apply distinct_NoDup. reflexivity.
Qed.

End ToolNodeProperties.

Lemma tool_node_answers_every_call_witness :
  exists msgs env',
    @Agent.tool_node Scenario.Mock Scenario.mock_subprocess
      {| Agent.messages :=
           [HumanMessage "list SSH keys" (Some (Uuid 0));
            AIMessage "" [Scenario.the_call] (Some (Uuid 1))];
         Agent.plan := None; Agent.findings := []; Agent.phase := "executing" |}
      (Scenario.fresh Scenario.listing)
    = (Ok msgs, env')
    /\ map Agent.answered msgs = [Some ("find_ssh_keys", "call_1")]
    /\ List.length msgs = 1%nat.
Proof.
  apply (@tool_node_answers_every_call Scenario.Mock Scenario.mock_subprocess
           {| Agent.messages :=
                [HumanMessage "list SSH keys" (Some (Uuid 0));
                 AIMessage "" [Scenario.the_call] (Some (Uuid 1))];
              Agent.plan := None; Agent.findings := []; Agent.phase := "executing" |}
           [HumanMessage "list SSH keys" (Some (Uuid 0))]
           "" [Scenario.the_call] (Some (Uuid 1))
           (Scenario.fresh Scenario.listing)).
  reflexivity.
Defined.

Lemma unknown_tool_is_reported_witness :
  fst (@Agent.run_tool_call Scenario.Mock Scenario.mock_subprocess
         {| tc_name := "read_mail"; tc_args := []; tc_id := "call_7" |}
         (Scenario.fresh Scenario.listing))
  = Ok (ToolMessage
          ("Error: read_mail is not a valid tool, try one of ["
             ++ PyStr.join ", " (@Agent.tool_names Scenario.Mock Scenario.mock_subprocess)
             ++ "].")
          "read_mail" "call_7" None).
Proof.
  rewrite (@unknown_tool_is_reported Scenario.Mock Scenario.mock_subprocess
             {| tc_name := "read_mail"; tc_args := []; tc_id := "call_7" |}
             (Scenario.fresh Scenario.listing)).
  - reflexivity.
  - vm_compute. intuition discriminate.
Defined.

Lemma registry_lookup_witness :
  @Agent.find_tool Scenario.Mock "find_ssh_keys"
     (@Tools.ALL_TOOLS Scenario.Mock Scenario.mock_subprocess)
  = Some (@Tools.find_ssh_keys Scenario.Mock Scenario.mock_subprocess).
Proof.
  apply (@registry_lookup Scenario.Mock Scenario.mock_subprocess
           (@Tools.find_ssh_keys Scenario.Mock Scenario.mock_subprocess)).
  cbn. right. right. right. left. reflexivity.
Defined.

(** ** The transcript across a run *)

Section TranscriptGrowth.
Context {Env : Type} `{Subprocess Env} `{ChatModel Env}.
Import State Agent Reducer.

Lemma messages_after_write (ch : Channels) (u : Update) :
  messages (values (write ch u))
  = fst (add_messages (messages (values ch)) (u_messages u) (drawn ch))
  /\ drawn (write ch u)
     = snd (add_messages (messages (values ch)) (u_messages u) (drawn ch)).
Proof.
  unfold write. destruct (add_messages _ _ _) as [msgs n].
  destruct (u_rest u) as [[[p f] ph]|]; auto.
Qed.

Lemma planner_node_inv (state : AgentState) (env env' : Env) (u : Update) :
  run_node N_planner state env = (Ok u, env') ->
  exists m msgs,
    llm_invoke msgs env = (Ok m, env')
    /\ u = whole {| messages := messages state ++ [m];
                    plan := Some (parse_plan (content_of m));
                    findings := findings state;
                    phase := "executing" |}.
Proof.
  cbn [run_node]. unfold mbind, planner_node, mbind, ret. intros Hrun.
  destruct (llm_invoke _ env) as [[m|e] env1] eqn:Hllm; [|discriminate].
  injection Hrun as <- <-. eauto.
Qed.

Lemma executor_node_inv (state : AgentState) (env env' : Env) (u : Update) :
  run_node N_executor state env = (Ok u, env') ->
  exists prompt m msgs,
    llm_bind_tools_invoke tool_names msgs env = (Ok m, env')
    /\ u = whole {| messages := messages state ++ [HumanMessage prompt None; m];
                    plan := plan state;
                    findings := findings state;
                    phase := phase state |}.
Proof.
  cbn [run_node]. unfold mbind, executor_node, mbind, ret. intros Hrun.
  destruct (plan state) as [p|].
  - destruct (next_step p) as [cur|e]; [|discriminate].
    destruct (llm_bind_tools_invoke _ _ env) as [[m|e] env1] eqn:Hllm;
      [|discriminate].
    injection Hrun as <- <-. eauto.
  - destruct (llm_bind_tools_invoke _ _ env) as [[m|e] env1] eqn:Hllm;
      [|discriminate].
    injection Hrun as <- <-. eauto.
Qed.

Lemma reporter_node_inv (state : AgentState) (env env' : Env) (u : Update) :
  run_node N_reporter state env = (Ok u, env') ->
  exists m msgs,
    llm_invoke msgs env = (Ok m, env')
    /\ u = whole {| messages := messages state ++ [HumanMessage report_prompt None; m];
                    plan := plan state;
                    findings := findings state;
                    phase := "complete" |}.
Proof.
  cbn [run_node]. unfold mbind, reporter_node, mbind, ret. intros Hrun.
  destruct (llm_invoke _ env) as [[m|e] env1] eqn:Hllm; [|discriminate].
  injection Hrun as <- <-. eauto.
Qed.

Lemma tool_node_inv (state : AgentState) (env env' : Env) (u : Update) :
  run_node N_tools state env = (Ok u, env') ->
  u_rest u = None /\ Forall (fun m => id_of m = None) (u_messages u).
Proof.
  cbn [run_node]. unfold mbind, ret, tool_node. intros Hrun.
  destruct (py_index (messages state) (-1)) as [[c i|c i|c calls i|c n t i]|e];
    try discriminate.
  destruct (mapM_run_tool_call calls env) as (msgs & env1 & Hmap & _ & Hids).
  rewrite Hmap in Hrun. injection Hrun as <- _. auto.
Qed.

(** What a node returns: messages of the transcript, then new ones without
    identifiers, as many as [appended] counts. *)
Lemma run_node_returns (n : Node) (state : AgentState) (env env' : Env) (u : Update) :
  anonymous_model ->
  run_node n state env = (Ok u, env') ->
  exists pre news,
    u_messages u = (pre ++ news)%list
    /\ incl pre (messages state)
    /\ Forall (fun m => id_of m = None) news
    /\ List.length news = appended (n, u).
Proof.
  intros Hanon Hrun. destruct n.
  - apply planner_node_inv in Hrun as (m & msgs & Hllm & ->).
    exists (messages state), [m]. repeat split; [apply incl_refl|].
    constructor; [|constructor]. exact (proj1 (Hanon _ _ _ _) Hllm).
  - apply executor_node_inv in Hrun as (prompt & m & msgs & Hllm & ->).
    exists (messages state), [HumanMessage prompt None; m].
    repeat split; [apply incl_refl|].
    constructor; [reflexivity|]. constructor; [|constructor].
    exact (proj2 (Hanon _ _ _ _) _ Hllm).
  - apply tool_node_inv in Hrun as [_ Hids].
    exists [], (u_messages u). repeat split; [intros x [] | exact Hids].
  - cbn [run_node] in Hrun. unfold ret in Hrun. injection Hrun as <- _.
    exists (messages state), []. cbn [whole u_messages advance_plan messages]. rewrite app_nil_r.
    repeat split; [apply incl_refl | constructor].
  - apply reporter_node_inv in Hrun as (m & msgs & Hllm & ->).
    exists (messages state), [HumanMessage report_prompt None; m].
    repeat split; [apply incl_refl|].
    constructor; [reflexivity|]. constructor; [|constructor].
    exact (proj1 (Hanon _ _ _ _) Hllm).
  - cbn [run_node] in Hrun. unfold ret in Hrun. injection Hrun as <- _.
    exists (messages state), []. cbn [whole u_messages advance_plan messages]. rewrite app_nil_r.
    repeat split; [apply incl_refl | constructor].
Qed.

Lemma step_appends (n n' : Node) (ch ch' : Channels) (env env' : Env) (u : Update) :
  anonymous_model ->
  well_identified (messages (values ch)) (drawn ch) ->
  step n ch env = (Ok (u, ch', n'), env') ->
  exists added,
    messages (values ch') = (messages (values ch) ++ added)%list
    /\ List.length added = appended (n, u)
    /\ well_identified (messages (values ch')) (drawn ch').
Proof.
  intros Hanon Hwell Hstep.
  apply step_inv in Hstep as (Hrun & -> & _).
  destruct (run_node_returns _ _ _ _ _ Hanon Hrun)
    as (pre & news & Hu & Hpre & Hnews & Hlen).
  destruct (messages_after_write ch u) as [Hm Hd].
  destruct (add_messages_appends _ pre news _ Hwell Hpre Hnews) as [Hadd Hwell'].
  rewrite Hu, Hadd in Hm, Hd. cbn [fst snd] in Hm, Hd.
  exists (stamp news (drawn ch)). rewrite Hm, Hd.
  split; [reflexivity|]. split; [|exact Hwell'].
  rewrite <- Hlen. clear. generalize (drawn ch).
  induction news as [|m news IH]; intros k; cbn; [reflexivity | now rewrite IH].
Qed.

Lemma run_from_appends (limit : nat) (n : Node) (ch final : Channels)
  (env env' : Env) (events : list Event) :
  anonymous_model ->
  well_identified (messages (values ch)) (drawn ch) ->
  run_from limit n ch env = (Ok (events, final), env') ->
  exists added,
    messages (values final) = (messages (values ch) ++ added)%list
    /\ List.length added = appended_total events.
Proof.
  intros Hanon. revert n ch env events.
  induction limit as [|k IH]; intros n ch env events Hwell Hrun.
  - destruct n; try discriminate.
    apply run_from_end in Hrun as [-> ->]. exists []. now rewrite app_nil_r.
  - destruct (Node_is_end n) as [-> | Hn].
    + apply run_from_end in Hrun as [-> ->]. exists []. now rewrite app_nil_r.
    + apply run_from_inv in Hrun
        as (u & ch1 & n1 & env1 & rest & Hstep & Hrest & ->); [|exact Hn].
      destruct (step_appends _ _ _ _ _ _ _ Hanon Hwell Hstep)
        as (added1 & Hm1 & Hlen1 & Hwell1).
      destruct (IH _ _ _ _ Hwell1 Hrest) as (added2 & Hm2 & Hlen2).
      exists (added1 ++ added2)%list. split.
      * rewrite Hm2, Hm1. now rewrite app_assoc.
      * rewrite length_app, Hlen1, Hlen2. reflexivity.
Qed.

Lemma stream_unfold (state0 : AgentState) (env : Env) :
  stream state0 env
  = run_from recursion_limit N_planner (write empty_channels (whole state0)) env.
Proof. reflexivity. Qed.

Lemma initial_channels (objective : string) :
  write empty_channels (whole (initial_state objective))
  = {| values := {| messages := [HumanMessage objective (Some (Uuid 0))];
                    plan := None; findings := []; phase := "planning" |};
       drawn := 1 |}.
Proof. reflexivity. Qed.

Lemma initial_well_identified (objective : string) :
  well_identified [HumanMessage objective (Some (Uuid 0))] 1.
Proof.
  split.
  - constructor; [|constructor]. exists (Uuid 0). split; [reflexivity|].
    intros n Hn. injection Hn as <-. lia.
  - constructor; [intros [] | constructor].
Qed.

(** With a model whose answers carry no identifiers, the transcript only
    grows: a run started on an objective ends with a transcript that begins
    with the objective and has one entry more for the planner, two for each
    executor turn, one for each tool result and two for the reporter. *)
Theorem transcript_only_grows
  (objective : string) (env env' : Env) (events : list Event) (final : Channels) :
  anonymous_model ->
  stream (initial_state objective) env = (Ok (events, final), env') ->
  exists added,
    messages (values final)
    = HumanMessage objective (Some (Uuid 0)) :: added
    /\ List.length (messages (values final)) = S (appended_total events).
Proof.
  intros Hanon Hrun. rewrite stream_unfold, initial_channels in Hrun.
  destruct (run_from_appends recursion_limit N_planner
              {| values := {| messages := [HumanMessage objective (Some (Uuid 0))];
                              plan := None; findings := []; phase := "planning" |};
                 drawn := 1 |}
              final env env' events Hanon (initial_well_identified objective) Hrun)
    as (added & Hm & Hlen).
  exists added. split; [exact Hm|]. rewrite Hm.
  cbn [List.length app values messages]. now rewrite Hlen.
Qed.

End TranscriptGrowth.

Lemma mock_is_anonymous :
  @Agent.anonymous_model Scenario.Mock Scenario.mock_chat_model.
Proof.
  intros msgs env env' m. split.
  - intros Hm. cbn in Hm. unfold Scenario.mock_invoke in Hm.
    injection Hm as <- _. reflexivity.
  - intros tools Hm. cbn in Hm. unfold Scenario.mock_bind_tools_invoke in Hm.
    injection Hm as <- _.
    destruct (Nat.eqb (Scenario.tool_calls_made env) 0); reflexivity.
Qed.

Lemma transcript_only_grows_witness :
  exists (events : list Agent.Event) (final : Agent.Channels) (env' : Scenario.Mock)
         (added : list Message),
    Scenario.run "list SSH keys" Scenario.listing = (Ok (events, final), env')
    /\ Agent.messages (Agent.values final)
       = HumanMessage "list SSH keys" (Some (Uuid 0)) :: added
    /\ List.length (Agent.messages (Agent.values final))
       = S (Agent.appended_total events).
Proof.
  assert (Hrun : exists (events : list Agent.Event) (final : Agent.Channels)
                        (env' : Scenario.Mock),
             Scenario.run "list SSH keys" Scenario.listing
             = (Ok (events, final), env')).
  { eexists. eexists. eexists. vm_compute. reflexivity. }
  destruct Hrun as (events & final & env' & Hrun).
  exists events, final, env'.
  pose proof Hrun as Hstream. rewrite run_is_stream in Hstream.
  destruct (@transcript_only_grows
              Scenario.Mock Scenario.mock_subprocess Scenario.mock_chat_model
              "list SSH keys" (Scenario.fresh Scenario.listing) env' events final
              mock_is_anonymous Hstream)
    as (added & Hm & Hlen).
  exists added. split; [exact Hrun|]. split; [exact Hm | exact Hlen].
Defined.

Lemma loop_keeps_cursor_in_range_witness :
  exists (events : list Agent.Event) (final : Agent.Channels) (env' : Scenario.Mock),
    Scenario.run "list SSH keys" Scenario.listing = (Ok (events, final), env')
    /\ Forall Agent.plan_in_range (Agent.plans_after events None)
    /\ Agent.plan_in_range (Agent.plan (Agent.values final)).
Proof.
  assert (Hrun : exists (events : list Agent.Event) (final : Agent.Channels)
                        (env' : Scenario.Mock),
             Scenario.run "list SSH keys" Scenario.listing
             = (Ok (events, final), env')).
  { eexists. eexists. eexists. vm_compute. reflexivity. }
  destruct Hrun as (events & final & env' & Hrun).
  exists events, final, env'. split; [exact Hrun|].
  rewrite run_is_stream, stream_unfold, initial_channels in Hrun.
  apply (@loop_keeps_cursor_in_range
           Scenario.Mock Scenario.mock_subprocess Scenario.mock_chat_model
           Agent.recursion_limit Agent.N_planner
           {| Agent.values :=
                {| Agent.messages := [HumanMessage "list SSH keys" (Some (Uuid 0))];
                   Agent.plan := None; Agent.findings := [];
                   Agent.phase := "planning" |};
              Agent.drawn := 1 |}
           final (Scenario.fresh Scenario.listing) env' events).
  - split; [exact I | discriminate].
  - exact Hrun.
Defined.
